(** * a11y-prototype: the accessibility side panel of [src/index.ts]

    A shallow embedding of the notebook scanner ([analyzeCellsAccessibility]),
    the prompt ([formatPrompt]), the suggestion backend adapter
    ([getFixSuggestions]), the per-issue widget ([CellIssueWidget], with
    [applySuggestion] and [navigateToCell]), the panel ([A11yMainPanel]),
    the activation of the plugin and the image helper
    ([fetchImageAsBase64]), followed by the properties of the
    specification that concern them and by further properties of the code.

    - The host application, the browser, the accessibility engine and the
      HTTP transport are external: they are the fields of [Env].
    - The JavaScript built-ins the code relies on ([String.prototype.trim],
      [replace] with a literal pattern, [JSON.parse], the [||] operator)
      are modelled in [Module JS]; strings are sequences of UTF-16 code
      units.
    - Effects are explicit: a computation threads the [World] (the cells of
      the notebook, the children of [document.body] and of the issue list),
      emits a trace of [Event]s and returns or throws.
    - The code runs on one thread and every asynchronous call is awaited;
      an awaited call is one step of the computation that awaits it, and
      nothing else runs in between. *)

From Stdlib Require Import NArith ZArith List String Ascii Bool Lia Sorted.
From stdpp Require Import base list.

Local Open Scope N_scope.

(* ===================================================================== *)
(** ** JavaScript strings and JSON values *)
(* ===================================================================== *)

Module JS.

(** A JavaScript string is a sequence of UTF-16 code units. *)
Definition jsstring := list N.

(** [js "abc"] is the JavaScript string with the code units of the literal. *)
Definition js (s : string) : jsstring :=
  map N_of_ascii (list_ascii_of_string s).

(** [qjs] is [js] with every apostrophe of the literal read as a double
    quote (U+0022) and every vertical bar read as a line feed (U+000A), so
    that JSON texts can be written down legibly. *)
Definition qjs (s : string) : jsstring :=
  map (fun c => if c =? 39 then 34 else if c =? 124 then 10 else c) (js s).

Definition str_eqb (a b : jsstring) : bool := bool_decide (a = b).

(** *** [String.prototype.trim] *)

(** WhiteSpace and LineTerminator code points of ECMA-262. *)
Definition is_js_space (c : N) : bool :=
  (c =? 9) || (c =? 10) || (c =? 11) || (c =? 12) || (c =? 13) || (c =? 32)
  || (c =? 160) || (c =? 5760) || ((8192 <=? c) && (c <=? 8202))
  || (c =? 8232) || (c =? 8233) || (c =? 8239) || (c =? 8287)
  || (c =? 12288) || (c =? 65279).

Fixpoint trim_start (s : jsstring) : jsstring :=
  match s with
  | c :: r => if is_js_space c then trim_start r else s
  | [] => []
  end.

Definition trim (s : jsstring) : jsstring :=
  rev (trim_start (rev (trim_start s))).

(** *** [s.replace(/literal/, '')] : the first occurrence is removed *)

Fixpoint strip_prefix (p s : jsstring) : option jsstring :=
  match p, s with
  | [], _ => Some s
  | a :: p', b :: s' => if a =? b then strip_prefix p' s' else None
  | _ :: _, [] => None
  end.

Fixpoint remove_first (pat s : jsstring) : jsstring :=
  match strip_prefix pat s with
  | Some r => r
  | None => match s with
            | [] => []
            | c :: r => c :: remove_first pat r
            end
  end.

(** *** JSON values *)

(** A JSON number is kept as the decimal it was written as:
    [(-1)^neg * digits * 10^exp10]. *)
Record number := mkNumber { neg : bool; digits : N; exp10 : Z }.

#[local] Unset Elimination Schemes.
Inductive value :=
| JNull
| JBool (b : bool)
| JNumber (n : number)
| JString (s : jsstring)
| JArray (elements : list value)
| JObject (members : list (jsstring * value)).
#[local] Set Elimination Schemes.

(** The Number value of a decimal literal is [+0] or [-0] exactly when the
    decimal is zero or rounds to zero, that is when it is at most [2^-1075]
    (half of the least subnormal double, the tie going to the even [0]). *)
Definition number_is_zero (n : number) : bool :=
  (digits n =? 0)
  || ((exp10 n <? 0)%Z
      && (Z.of_N (digits n) * 2 ^ 1075 <=? 10 ^ (- exp10 n))%Z).

(** ECMA-262 ToBoolean, on the values [JSON.parse] can produce. *)
Definition ToBoolean (v : value) : bool :=
  match v with
  | JNull => false
  | JBool b => b
  | JNumber n => negb (number_is_zero n)
  | JString s => match s with [] => false | _ => true end
  | JArray _ | JObject _ => true
  end.

(** [x || ''], where [x] is the result of a property read ([None] stands
    for [undefined]). *)
Definition or_empty (x : option value) : value :=
  match x with
  | Some v => if ToBoolean v then v else JString []
  | None => JString []
  end.

(** The own property [k] of an object literal: of duplicate keys the last
    one wins. *)
Fixpoint obj_get (k : jsstring) (ms : list (jsstring * value)) : option value :=
  match ms with
  | [] => None
  | (k', v) :: r =>
      match obj_get k r with
      | Some v' => Some v'
      | None => if str_eqb k k' then Some v else None
      end
  end.

(** Outcome of evaluating an expression: a value, or a thrown exception. *)
Inductive exn :=
| SyntaxError
| TypeError
| HttpError (status : N)
| HostError (reason : jsstring).

Inductive completion (A : Type) :=
| Return (a : A)
| Throw (e : exn).
Arguments Return {A} a.
Arguments Throw {A} e.

(** [v.k] for a property name [k] that no prototype defines: [undefined]
    unless [v] is an object with that own property; reading a property of
    [null] throws. *)
Definition get_prop (v : value) (k : jsstring) : completion (option value) :=
  match v with
  | JNull => Throw TypeError
  | JObject ms => Return (obj_get k ms)
  | _ => Return None
  end.

(** *** [JSON.parse] *)

Definition is_json_ws (c : N) : bool :=
  (c =? 32) || (c =? 9) || (c =? 10) || (c =? 13).

Fixpoint skip_ws (s : jsstring) : jsstring :=
  match s with
  | c :: r => if is_json_ws c then skip_ws r else s
  | [] => []
  end.

Definition digit_val (c : N) : option N :=
  if (48 <=? c) && (c <=? 57) then Some (c - 48) else None.

Definition hex_val (c : N) : option N :=
  if (48 <=? c) && (c <=? 57) then Some (c - 48)
  else if (65 <=? c) && (c <=? 70) then Some (c - 55)
  else if (97 <=? c) && (c <=? 102) then Some (c - 87)
  else None.

Definition hex4 (a b c d : N) : option N :=
  match hex_val a, hex_val b, hex_val c, hex_val d with
  | Some x, Some y, Some z, Some w => Some (((x * 16 + y) * 16 + z) * 16 + w)
  | _, _, _, _ => None
  end.

(** The character a single-letter escape stands for. *)
Definition escape_char (e : N) : option N :=
  if e =? 34 then Some 34          (* quote *)
  else if e =? 92 then Some 92     (* backslash *)
  else if e =? 47 then Some 47     (* slash *)
  else if e =? 98 then Some 8      (* b: backspace *)
  else if e =? 102 then Some 12    (* f: form feed *)
  else if e =? 110 then Some 10    (* n: line feed *)
  else if e =? 114 then Some 13    (* r: carriage return *)
  else if e =? 116 then Some 9     (* t: tab *)
  else None.

Definition cons_chars (c : N) (r : option (jsstring * jsstring))
  : option (jsstring * jsstring) :=
  match r with
  | Some (cs, rest) => Some (c :: cs, rest)
  | None => None
  end.

(** The characters of a string literal, the opening quote already read:
    the decoded string and the text after the closing quote. *)
Fixpoint parse_chars (s : jsstring) : option (jsstring * jsstring) :=
  match s with
  | [] => None
  | c :: r =>
      if c =? 34 then Some ([], r)
      else if c =? 92 then
        match r with
        | [] => None
        | e :: r1 =>
            if e =? 117 then
              match r1 with
              | h1 :: h2 :: h3 :: h4 :: r2 =>
                  match hex4 h1 h2 h3 h4 with
                  | Some u => cons_chars u (parse_chars r2)
                  | None => None
                  end
              | _ => None
              end
            else
              match escape_char e with
              | Some x => cons_chars x (parse_chars r1)
              | None => None
              end
        end
      else if c <? 32 then None
      else cons_chars c (parse_chars r)
  end.

(** The longest run of decimal digits: its value, its length, the rest. *)
Fixpoint take_digits (acc : N) (len : nat) (s : jsstring) : N * nat * jsstring :=
  match s with
  | c :: r =>
      match digit_val c with
      | Some d => take_digits (acc * 10 + d) (S len) r
      | None => (acc, len, s)
      end
  | [] => (acc, len, [])
  end.

(** An optional minus sign. *)
Definition parse_sign (s : jsstring) : bool * jsstring :=
  match s with
  | c :: r => if c =? 45 then (true, r) else (false, s)
  | [] => (false, s)
  end.

(** int: a single 0, or a run of digits that does not start with 0. *)
Definition parse_int (s : jsstring) : option (N * jsstring) :=
  match s with
  | c :: r =>
      if c =? 48 then Some (0, r)
      else match take_digits 0 0 s with
           | (_, O, _) => None
           | (m, S _, rest) => Some (m, rest)
           end
  | [] => None
  end.

(** frac: a dot and at least one digit; the digits extend the mantissa [m],
    and their number is returned with it. *)
Definition parse_frac (m : N) (s : jsstring) : option (N * nat * jsstring) :=
  match s with
  | c :: r =>
      if c =? 46 then
        match take_digits m 0 r with
        | (_, O, _) => None
        | (m', S k, rest) => Some (m', S k, rest)
        end
      else Some (m, O, s)
  | [] => Some (m, O, s)
  end.

(** exp: e or E, an optional sign, at least one digit. *)
Definition parse_exp (s : jsstring) : option (Z * jsstring) :=
  match s with
  | c :: r =>
      if (c =? 101) || (c =? 69) then
        let '(eneg, r1) :=
          match r with
          | d :: r' =>
              if d =? 45 then (true, r')
              else if d =? 43 then (false, r')
              else (false, r)
          | [] => (false, r)
          end in
        match take_digits 0 0 r1 with
        | (_, O, _) => None
        | (e, S _, rest) =>
            Some ((if eneg then - Z.of_N e else Z.of_N e)%Z, rest)
        end
      else Some (0%Z, s)
  | [] => Some (0%Z, s)
  end.

(** number: [-? int frac? exp?] *)
Definition parse_number (s : jsstring) : option (number * jsstring) :=
  let '(sign, s1) := parse_sign s in
  match parse_int s1 with
  | None => None
  | Some (m, s2) =>
      match parse_frac m s2 with
      | None => None
      | Some (m', k, s3) =>
          match parse_exp s3 with
          | None => None
          | Some (e, s4) => Some (mkNumber sign m' (e - Z.of_nat k)%Z, s4)
          end
      end
  end.

(** Result of a parsing step: a value and the unread text, a syntax error,
    or exhaustion of the recursion budget. *)
Inductive presult :=
| POk (v : value) (rest : jsstring)
| PError
| PFuel.

(** A value that is neither an object nor an array: a string, one of the
    three literal names, or a number. *)
Definition parse_scalar (s : jsstring) : presult :=
  match s with
  | [] => PError
  | c :: r =>
      if c =? 34 then
        match parse_chars r with
        | Some (cs, rest) => POk (JString cs) rest
        | None => PError
        end
      else
        match strip_prefix (js "true") s,
              strip_prefix (js "false") s,
              strip_prefix (js "null") s with
        | Some rest, _, _ => POk (JBool true) rest
        | _, Some rest, _ => POk (JBool false) rest
        | _, _, Some rest => POk JNull rest
        | None, None, None =>
            match parse_number s with
            | Some (n, rest) => POk (JNumber n) rest
            | None => PError
            end
        end
  end.

Fixpoint parse_value (fuel : nat) (s : jsstring) : presult :=
  match fuel with
  | O => PFuel
  | S fuel' =>
      match skip_ws s with
      | [] => PError
      | c :: r =>
          if c =? 123 then                                   (* { *)
            match skip_ws r with
            | [] => PError
            | c' :: r' =>
                if c' =? 125 then POk (JObject []) r'
                else parse_members fuel' (c' :: r') []
            end
          else if c =? 91 then                                (* [ *)
            match skip_ws r with
            | [] => PError
            | c' :: r' =>
                if c' =? 93 then POk (JArray []) r'
                else parse_elements fuel' (c' :: r') []
            end
          else parse_scalar (c :: r)
      end
  end

(** The elements of an array from the first one on; [acc] holds the
    elements read so far, last first. *)
with parse_elements (fuel : nat) (s : jsstring) (acc : list value) : presult :=
  match fuel with
  | O => PFuel
  | S fuel' =>
      match parse_value fuel' s with
      | POk v rest =>
          match skip_ws rest with
          | [] => PError
          | c :: r =>
              if c =? 44 then parse_elements fuel' r (v :: acc)
              else if c =? 93 then POk (JArray (rev (v :: acc))) r
              else PError
          end
      | PError => PError
      | PFuel => PFuel
      end
  end

(** The members of an object from the first one on. *)
with parse_members (fuel : nat) (s : jsstring) (acc : list (jsstring * value))
  : presult :=
  match fuel with
  | O => PFuel
  | S fuel' =>
      match skip_ws s with
      | [] => PError
      | q :: r0 =>
          if q =? 34 then
            match parse_chars r0 with
            | None => PError
            | Some (k, r1) =>
                match skip_ws r1 with
                | [] => PError
                | colon :: r2 =>
                    if colon =? 58 then
                      match parse_value fuel' r2 with
                      | POk v rest =>
                          match skip_ws rest with
                          | [] => PError
                          | c :: r =>
                              if c =? 44 then
                                parse_members fuel' r ((k, v) :: acc)
                              else if c =? 125 then
                                POk (JObject (rev ((k, v) :: acc))) r
                              else PError
                          end
                      | PError => PError
                      | PFuel => PFuel
                      end
                    else PError
                end
            end
          else PError
      end
  end.

(** Recursion budget that always suffices (see [JSON_parse_budget]). *)
Definition parse_fuel (s : jsstring) : nat := 2 * length s + 1.

(** [JSON.parse(text)]: one value, surrounded by optional white space. *)
Definition JSON_parse (text : jsstring) : completion value :=
  match parse_value (parse_fuel text) text with
  | POk v rest =>
      match skip_ws rest with
      | [] => Return v
      | _ :: _ => Throw SyntaxError
      end
  | PError => Throw SyntaxError
  | PFuel => Throw SyntaxError
  end.

End JS.

Import JS.

(* ===================================================================== *)
(** ** Data model *)
(* ===================================================================== *)

(** Serialised markup, as read from and written to [innerHTML]. *)
Definition Html := jsstring.

(** [axe.Result]: one violated rule. *)
Record AxeResult := {
  id : jsstring;
  impact : jsstring;
  description : jsstring;
  help : jsstring;
  helpUrl : jsstring
}.

(** [axe.RunOptions]: the tags to run and the per-rule switches. *)
Record RunOptions := {
  runOnly : list jsstring;
  rules : list (jsstring * bool)
}.

(** [axe.AxeResults], of which the code reads [violations] only. *)
Record AxeResults := { violations : list AxeResult }.

(** The element handed to the engine: its markup and whether it is part of
    the document. *)
Record Element := { innerHTML : Html; attached : bool }.

(** [cell.node]: what the code reads of a cell's DOM node.  A query field
    holds the [innerHTML] of the first descendant matching the selector,
    [None] when [querySelector] answers [null]. *)
Record CellNode := {
  query_MarkdownOutput : option Html;     (* '.jp-MarkdownOutput' *)
  query_OutputArea : option Html;         (* '.jp-OutputArea' *)
  node_innerHTML : Html
}.

(** [cell.model]: its [type] and the text of [sharedModel]. *)
Record CellModel := { type : jsstring; source : jsstring }.

Record Cell := { model : option CellModel; node : CellNode }.

Record CellAccessibilityIssue := {
  cellIndex : nat;
  cellType : jsstring;
  axeResults : list AxeResult;
  contentRaw : jsstring
}.

(** DOM nodes created by the plugin are named by numbers. *)
Definition NodeId := nat.

(** The request of [getFixSuggestions]: the endpoint, the method, the
    content type and the three fields of the JSON body. *)
Record Request := {
  url : jsstring;
  method : jsstring;
  content_type : jsstring;
  body_model : jsstring;
  body_prompt : jsstring;
  body_stream : bool
}.

(** A transport response: its status and the outcome of [response.text()]. *)
Record Response := { status : N; text : completion jsstring }.

(** [response.ok]: the status is in the range 200-299. *)
Definition ok (r : Response) : bool := (200 <=? status r) && (status r <=? 299).

(** What the code does to the outside, in the order it does it. *)
Inductive Event :=
| CreateElement (d : NodeId)                   (* document.createElement('div') *)
| AppendToBody (d : NodeId)                    (* document.body.appendChild(d) *)
| SetInnerHTML (d : NodeId) (h : Html)         (* d.innerHTML = h *)
| RemoveNode (d : NodeId)                      (* d.remove() *)
| AxeRun (el : Element) (options : RunOptions) (* axe.run(el, options) *)
| SetSource (index : nat) (v : value)          (* sharedModel.setSource(v) *)
| Dispose (d : NodeId)                         (* widget.dispose() *)
| WarnSkippingCell (i : nat)                   (* console.warn *)
| LogPrompt (p : jsstring)                     (* console.log *)
| ErrorFailedToParse (e : exn)                 (* console.error *)
| ErrorGettingSuggestions (e : exn).           (* console.error *)

(** The mutable surroundings of the plugin.  The model follows one notebook
    panel: [notebook] is its [content.widgets], an entry [None] being a
    missing cell.  [body] lists the nodes the plugin has attached to
    [document.body], [issuesContainer] the children of the panel's issue
    list, [next_node] the name of the next node to be created. *)
Record World := {
  notebook : list (option Cell);
  body : list NodeId;
  issuesContainer : list NodeId;
  next_node : NodeId
}.

(** The external collaborators. *)
Record Env := {
  (** the transport: the outcome of [fetch] for a request *)
  fetch : Request -> completion Response;
  (** the accessibility engine *)
  axe_run : Element -> RunOptions -> completion AxeResults;
  (** the browser: the [innerHTML] read back after assigning markup *)
  reparse : Html -> Html;
  (** the host: the node of a cell once its model holds a new source *)
  host_render : CellModel -> CellNode -> CellNode;
  (** the host: the text stored when [setSource] is handed a non-string *)
  setSource_nonstring : value -> jsstring
}.

(** A reference to the notebook panel of the [World]. *)
Inductive NotebookPanel := the_panel.

(** The fields of a [CellIssueWidget]; [widget_node] is [this.node]. *)
Record CellIssueWidget := {
  currentNotebook : option NotebookPanel;
  widget_cellIndex : nat;
  suggestion : value;
  widget_node : NodeId;
  aiSuggestion_textContent : value;
  explanationPopup_textContent : value * value;  (* 'AI Explanation: ' + explanation *)
  isDisposed : bool
}.

(* ===================================================================== *)
(** ** Effects: a state, a trace and exceptions *)
(* ===================================================================== *)

(** A computation reads and updates the [World], emits events and either
    returns or throws. *)
Definition M (A : Type) : Type := World -> completion A * World * list Event.

Definition ret {A} (a : A) : M A := fun w => (Return a, w, []).

Definition throw {A} (e : exn) : M A := fun w => (Throw e, w, []).

Definition bind {A B} (m : M A) (k : A -> M B) : M B :=
  fun w =>
    match m w with
    | (Return a, w1, t1) =>
        let '(r, w2, t2) := k a w1 in (r, w2, t1 ++ t2)
    | (Throw e, w1, t1) => (Throw e, w1, t1)
    end.

Notation "x <- m ;; k" := (bind m (fun x => k))
  (at level 100, m at next level, right associativity).
Notation "m ;; k" := (bind m (fun _ => k))
  (at level 100, right associativity).

(** [try { m } finally { cleanup }]: the cleanup runs on both exits, and the
    outcome of [m] stands. *)
Definition try_finally {A} (m : M A) (cleanup : M unit) : M A :=
  fun w =>
    let '(r, w1, t1) := m w in
    match cleanup w1 with
    | (Return _, w2, t2) => (r, w2, t1 ++ t2)
    | (Throw e, w2, t2) => (Throw e, w2, t1 ++ t2)
    end.

(** [try { m } catch (e) { handler e }] *)
Definition try_catch {A} (m : M A) (handler : exn -> M A) : M A :=
  fun w =>
    match m w with
    | (Return a, w1, t1) => (Return a, w1, t1)
    | (Throw e, w1, t1) =>
        let '(r, w2, t2) := handler e w1 in (r, w2, t1 ++ t2)
    end.

Definition emit (e : Event) : M unit := fun w => (Return tt, w, [e]).

Definition get_world : M World := fun w => (Return w, w, []).

Definition lift {A} (c : completion A) : M A := fun w => (c, w, []).

(** *** DOM operations *)

Definition without (d : NodeId) (l : list NodeId) : list NodeId :=
  filter (fun x => x <> d) l.

Definition createElement : M NodeId :=
  fun w =>
    let d := next_node w in
    (Return d,
     {| notebook := notebook w; body := body w;
        issuesContainer := issuesContainer w; next_node := S d |},
     [CreateElement d]).

Definition appendToBody (d : NodeId) : M unit :=
  fun w =>
    (Return tt,
     {| notebook := notebook w; body := without d (body w) ++ [d];
        issuesContainer := without d (issuesContainer w);
        next_node := next_node w |},
     [AppendToBody d]).

(** [d.remove()]: the node leaves its parent, whichever it is. *)
Definition removeNode (d : NodeId) : M unit :=
  fun w =>
    (Return tt,
     {| notebook := notebook w; body := without d (body w);
        issuesContainer := without d (issuesContainer w);
        next_node := next_node w |},
     [RemoveNode d]).

(** [d.innerHTML = h], and the markup read back from [d]. *)
Definition setInnerHTML (env : Env) (d : NodeId) (h : Html) : M Html :=
  emit (SetInnerHTML d h) ;; ret (reparse env h).

Definition axe (env : Env) (el : Element) (options : RunOptions) : M AxeResults :=
  emit (AxeRun el options) ;; lift (axe_run env el options).

(* ===================================================================== *)
(** ** The scanner: [analyzeCellsAccessibility] *)
(* ===================================================================== *)

Definition axeConfig : RunOptions :=
  {| runOnly := [js "wcag2a"; js "wcag2aa"; js "wcag21a"; js "wcag21aa"];
     rules := [(js "button-name", false)] |}.

Definition nonempty (s : jsstring) : bool :=
  match s with [] => false | _ :: _ => true end.

(** [cell.node.querySelector(...)] for the two recognised cell types;
    [None] is the [undefined] the variable [output] keeps otherwise. *)
Definition select_output (cellType : jsstring) (n : CellNode) : option Html :=
  if str_eqb cellType (js "markdown") then query_MarkdownOutput n
  else if str_eqb cellType (js "code") then query_OutputArea n
  else None.

(** One turn of the loop over the cells. *)
Definition analyze_cell (env : Env) (tempDiv : NodeId) (i : nat)
    (c : option Cell) (issues : list CellAccessibilityIssue)
  : M (list CellAccessibilityIssue) :=
  match c with
  | None => emit (WarnSkippingCell i) ;; ret issues
  | Some cell =>
      match model cell with
      | None => emit (WarnSkippingCell i) ;; ret issues
      | Some m =>
          let cellType := type m in
          match select_output cellType (node cell) with
          | None => ret issues
          | Some output =>
              inner <- setInnerHTML env tempDiv output ;;
              if nonempty (trim inner) then
                results <- axe env {| innerHTML := inner; attached := true |}
                               axeConfig ;;
                if (0 <? length (violations results))%nat then
                  ret (issues ++ [{| cellIndex := i;
                                     cellType := cellType;
                                     axeResults := violations results;
                                     contentRaw := source m |}])
                else ret issues
              else ret issues
          end
      end
  end.

(** The loop [for (let i = 0; i < cells.length; i++)], from index [i] on. *)
Fixpoint analyze_cells (env : Env) (tempDiv : NodeId) (i : nat)
    (cells : list (option Cell)) (issues : list CellAccessibilityIssue)
  : M (list CellAccessibilityIssue) :=
  match cells with
  | [] => ret issues
  | c :: rest =>
      issues' <- analyze_cell env tempDiv i c issues ;;
      analyze_cells env tempDiv (S i) rest issues'
  end.

Definition analyzeCellsAccessibility (env : Env) : M (list CellAccessibilityIssue) :=
  tempDiv <- createElement ;;
  appendToBody tempDiv ;;
  try_finally
    (w <- get_world ;;
     analyze_cells env tempDiv 0 (notebook w) [])
    (removeNode tempDiv).

(* ===================================================================== *)
(** ** The prompt: [formatPrompt] *)
(* ===================================================================== *)

Definition formatPrompt (issue : CellAccessibilityIssue) : jsstring :=
  qjs "The following represents a jupyter notebook cell and a accessibility issue found in it.||"
  ++ qjs "Content: |" ++ contentRaw issue ++ qjs "||"
  ++ concat (map (fun r =>
                    qjs "Issue: " ++ id r ++ qjs "||"
                    ++ qjs "Description: " ++ description r ++ qjs "||")
                 (axeResults issue)).

(* ===================================================================== *)
(** ** The backend adapter: [getFixSuggestions] *)
(* ===================================================================== *)

Definition OLLAMA_API : jsstring := js "http://localhost:11434/api/generate".

Definition make_request (prompt : jsstring) : Request :=
  {| url := OLLAMA_API;
     method := js "POST";
     content_type := js "application/json";
     body_model := js "mistral";
     body_prompt := prompt;
     body_stream := false |}.

(** [responseObj.response.replace(...).replace(...).trim()]: the property
    must hold a string, no other JSON value has a callable [replace]. *)
Definition rawJSONString_of (responseObj : value) : completion jsstring :=
  match get_prop responseObj (js "response") with
  | Throw e => Throw e
  | Return (Some (JString s)) =>
      Return (trim (remove_first (qjs "|```")
                      (remove_first (qjs "```json|") s)))
  | Return _ => Throw TypeError
  end.

(** [[result.exampleCellContent || '', result.explanation || '']] *)
Definition suggestion_of (result : value) : completion (value * value) :=
  match get_prop result (js "exampleCellContent"),
        get_prop result (js "explanation") with
  | Return a, Return b => Return (or_empty a, or_empty b)
  | Throw e, _ => Throw e
  | _, Throw e => Throw e
  end.

Definition getFixSuggestions (env : Env) (prompt : jsstring) : M (value * value) :=
  try_catch
    (response <- lift (fetch env (make_request prompt)) ;;
     (if negb (ok response) then throw (HttpError (status response))
      else ret tt) ;;
     responseText <- lift (text response) ;;
     responseObj <- lift (JSON_parse responseText) ;;
     try_catch
       (rawJSONString <- lift (rawJSONString_of responseObj) ;;
        result <- lift (JSON_parse rawJSONString) ;;
        lift (suggestion_of result))
       (fun e =>
          emit (ErrorFailedToParse e) ;;
          ret (JString (js "Invalid response format"), JString [])))
    (fun error =>
       emit (ErrorGettingSuggestions error) ;;
       ret (JString (js "Error analyzing accessibility issues"), JString [])).

(* ===================================================================== *)
(** ** The issue widget: [CellIssueWidget] *)
(* ===================================================================== *)

(** The state of a widget when its constructor has run: the request for a
    suggestion is under way and [suggestion] still holds [''].  The pair
    of [explanationPopup_textContent] is the two operands of the [+]. *)
Definition CellIssueWidget_new (issue : CellAccessibilityIssue)
    (nb : NotebookPanel) (n : NodeId) : CellIssueWidget :=
  {| currentNotebook := Some nb;
     widget_cellIndex := cellIndex issue;
     suggestion := JString [];
     widget_node := n;
     aiSuggestion_textContent := JString [];
     explanationPopup_textContent := (JString [], JString []);
     isDisposed := false |}.

(** The synchronous part of the constructor. *)
Definition CellIssueWidget_constructor (issue : CellAccessibilityIssue)
    (nb : NotebookPanel) : M CellIssueWidget :=
  n <- createElement ;;
  emit (LogPrompt (formatPrompt issue)) ;;
  ret (CellIssueWidget_new issue nb n).

(** The callback of [getFixSuggestions(...).then(...)]. *)
Definition on_suggestion (this : CellIssueWidget) (r : value * value)
  : CellIssueWidget :=
  let '(sugg, explanation) := r in
  {| currentNotebook := currentNotebook this;
     widget_cellIndex := widget_cellIndex this;
     suggestion := sugg;
     widget_node := widget_node this;
     aiSuggestion_textContent := sugg;
     explanationPopup_textContent := (JString (js "AI Explanation: "), explanation);
     isDisposed := isDisposed this |}.

(** The asynchronous part: the request of the constructor completes and
    its callback runs on the widget. *)
Definition suggestion_arrives (env : Env) (issue : CellAccessibilityIssue)
    (this : CellIssueWidget) : M CellIssueWidget :=
  r <- getFixSuggestions env (formatPrompt issue) ;;
  ret (on_suggestion this r).

(** [sharedModel.setSource(v)] on the cell at [index]: the model holds the
    new text and the host renders the cell again. *)
Definition new_source (env : Env) (v : value) : jsstring :=
  match v with
  | JString s => s
  | _ => setSource_nonstring env v
  end.

(** The cell once [setSource(v)] has run on its model. *)
Definition applied_cell (env : Env) (v : value) (cell : Cell) (m : CellModel)
  : Cell :=
  let m' := {| type := type m; source := new_source env v |} in
  {| model := Some m'; node := host_render env m' (node cell) |}.

Definition setSource (env : Env) (index : nat) (cell : Cell) (m : CellModel)
    (v : value) : M Cell :=
  fun w =>
    let cell' := applied_cell env v cell m in
    (Return cell',
     {| notebook := <[index := Some cell']> (notebook w); body := body w;
        issuesContainer := issuesContainer w; next_node := next_node w |},
     [SetSource index v]).

(** The widget once [dispose()] has run. *)
Definition disposed (this : CellIssueWidget) : CellIssueWidget :=
  {| currentNotebook := currentNotebook this;
     widget_cellIndex := widget_cellIndex this;
     suggestion := suggestion this;
     widget_node := widget_node this;
     aiSuggestion_textContent := aiSuggestion_textContent this;
     explanationPopup_textContent := explanationPopup_textContent this;
     isDisposed := true |}.

Definition dispose (this : CellIssueWidget) : M CellIssueWidget :=
  emit (Dispose (widget_node this)) ;;
  ret (disposed this).

(** The options literal of [applySuggestion]. *)
Definition applyOptions : RunOptions :=
  {| runOnly := [js "wcag2a"; js "wcag2aa"; js "wcag21a"; js "wcag21aa"];
     rules := [(js "button-name", false)] |}.

Definition is_null {A} (x : option A) : bool :=
  match x with None => true | Some _ => false end.

(** [applySuggestion]; the result is the widget afterwards. *)
Definition applySuggestion (env : Env) (this : CellIssueWidget) : M CellIssueWidget :=
  if is_null (currentNotebook this) || negb (ToBoolean (suggestion this))
  then ret this
  else
    w <- get_world ;;
    match notebook w !! widget_cellIndex this with
    | Some (Some cell) =>
        match model cell with
        | Some m =>
            cell' <- setSource env (widget_cellIndex this) cell m (suggestion this) ;;
            tempDiv <- createElement ;;
            inner <- setInnerHTML env tempDiv (node_innerHTML (node cell')) ;;
            try_finally
              (results <- axe env {| innerHTML := inner; attached := false |}
                              applyOptions ;;
               if (length (violations results) =? 0)%nat then
                 removeNode (widget_node this) ;;
                 dispose this
               else ret this)
              (removeNode tempDiv)
        | None => ret this
        end
    | _ => ret this
    end.

(* ===================================================================== *)
(** ** The panel: [A11yMainPanel.analyzeCurrentNotebook] *)
(* ===================================================================== *)

(** [this.issuesContainer.innerHTML = ''] *)
Definition clear_issues : M unit :=
  fun w =>
    (Return tt,
     {| notebook := notebook w; body := body w; issuesContainer := [];
        next_node := next_node w |},
     []).

(** [this.issuesContainer.appendChild(issueWidget.node)] *)
Definition appendIssue (d : NodeId) : M unit :=
  fun w =>
    (Return tt,
     {| notebook := notebook w; body := without d (body w);
        issuesContainer := without d (issuesContainer w) ++ [d];
        next_node := next_node w |},
     []).

Fixpoint add_widgets (nb : NotebookPanel)
    (issues : list CellAccessibilityIssue) : M (list CellIssueWidget) :=
  match issues with
  | [] => ret []
  | issue :: rest =>
      issueWidget <- CellIssueWidget_constructor issue nb ;;
      appendIssue (widget_node issueWidget) ;;
      ws <- add_widgets nb rest ;;
      ret (issueWidget :: ws)
  end.

(** The widgets are returned for reference; the panel itself keeps their
    nodes only.  Their suggestions arrive later ([suggestion_arrives]). *)
Definition analyzeCurrentNotebook (env : Env) (current : option NotebookPanel)
  : M (list CellIssueWidget) :=
  match current with
  | None => ret []
  | Some nb =>
      clear_issues ;;
      issues <- analyzeCellsAccessibility env ;;
      add_widgets nb issues
  end.

(* ===================================================================== *)
(** ** Sample surroundings *)
(* ===================================================================== *)

Module Demo.

(** Does [s] contain [pat]? *)
Fixpoint contains (pat s : jsstring) : bool :=
  match strip_prefix pat s with
  | Some _ => true
  | None => match s with
            | [] => false
            | _ :: r => contains pat r
            end
  end.

Definition image_alt : AxeResult :=
  {| id := js "image-alt";
     impact := js "critical";
     description := js "Ensures <img> elements have alternate text";
     help := js "Images must have alternate text";
     helpUrl := js "https://dequeuniversity.com/rules/axe/4.10/image-alt" |}.

(** An engine that knows one rule: an image needs an [alt] attribute. *)
Definition axe_image_alt (el : Element) (o : RunOptions) : completion AxeResults :=
  if contains (js "<img") (innerHTML el) && negb (contains (js "alt=") (innerHTML el))
  then Return {| violations := [image_alt] |}
  else Return {| violations := [] |}.

(** An engine that fails on every call. *)
Definition axe_failing (el : Element) (o : RunOptions) : completion AxeResults :=
  Throw (HostError (js "Axe is already running")).

(** A host that renders the source of a cell as its markup. *)
Definition render_source (m : CellModel) (n : CellNode) : CellNode :=
  {| query_MarkdownOutput :=
       if str_eqb (type m) (js "markdown") then Some (source m) else None;
     query_OutputArea := query_OutputArea n;
     node_innerHTML := source m |}.

(** A transport that answers every request with the status [st] and the
    body [t]. *)
Definition respond (st : N) (t : jsstring) (r : Request) : completion Response :=
  Return {| status := st; text := Return t |}.

(** A transport that cannot reach the service. *)
Definition unreachable (r : Request) : completion Response :=
  Throw (HostError (js "Failed to fetch")).

Definition env_with (f : Request -> completion Response)
    (a : Element -> RunOptions -> completion AxeResults) : Env :=
  {| fetch := f;
     axe_run := a;
     reparse := fun h => h;
     host_render := render_source;
     setSource_nonstring := fun _ => js "[object Object]" |}.

Definition cell_of (ty src : jsstring) : Cell :=
  let m := {| type := ty; source := src |} in
  {| model := Some m;
     node := render_source m
               {| query_MarkdownOutput := None; query_OutputArea := None;
                  node_innerHTML := [] |} |}.

Definition img_cell : Cell := cell_of (js "markdown") (qjs "<img src='cat.png'>").
Definition text_cell : Cell := cell_of (js "markdown") (js "<p>Hello</p>").
Definition blank_cell : Cell := cell_of (js "markdown") (js "   ").
Definition raw_cell : Cell := cell_of (js "raw") (qjs "<img src='dog.png'>").
Definition code_cell : Cell :=
  {| model := Some {| type := js "code"; source := js "print(1)" |};
     node := {| query_MarkdownOutput := None;
                query_OutputArea := Some (qjs "<img src='plot.png'>");
                node_innerHTML := qjs "<div class='jp-OutputArea'><img src='plot.png'></div>" |} |}.
Definition closed_cell : Cell := {| model := None; node := node text_cell |}.

Definition world_of (cells : list (option Cell)) : World :=
  {| notebook := cells; body := []; issuesContainer := [];
     next_node := 0%nat |}.

(** The body of the fenced scenario, as the service sends it. *)
Definition fenced_body : jsstring :=
  qjs "{'response':'```json\n{\'exampleCellContent\':\'alt text here\',\'explanation\':\'added alt\'}\n```'}".

(** A payload whose replacement is a number. *)
Definition number_body : jsstring :=
  qjs "{'response':'{\'exampleCellContent\':42}'}".

(** A payload that is no JSON text. *)
Definition prose_body : jsstring :=
  qjs "{'response':'Sure! Add an alt attribute.'}".

Definition img_issue : CellAccessibilityIssue :=
  {| cellIndex := 0%nat; cellType := js "markdown"; axeResults := [image_alt];
     contentRaw := qjs "<img src='cat.png'>" |}.

(** A widget for the first cell, its node in the panel, holding [s]. *)
Definition widget_holding (s : value) : CellIssueWidget :=
  on_suggestion (CellIssueWidget_new img_issue the_panel 0%nat) (s, JString []).

Definition panel_world (cells : list (option Cell)) : World :=
  {| notebook := cells; body := []; issuesContainer := [0%nat];
     next_node := 1%nat |}.

End Demo.

(* ===================================================================== *)
(** ** Observations on traces *)
(* ===================================================================== *)

Local Open Scope nat_scope.

(** The calls of the accessibility engine in a trace. *)
Fixpoint axe_calls (t : list Event) : list (Element * RunOptions) :=
  match t with
  | [] => []
  | AxeRun el o :: r => (el, o) :: axe_calls r
  | _ :: r => axe_calls r
  end.

(** The writes to cell sources in a trace. *)
Fixpoint source_writes (t : list Event) : list (nat * value) :=
  match t with
  | [] => []
  | SetSource i v :: r => (i, v) :: source_writes r
  | _ :: r => source_writes r
  end.

(** The warnings in a trace. *)
Fixpoint warnings (t : list Event) : list nat :=
  match t with
  | [] => []
  | WarnSkippingCell i :: r => i :: warnings r
  | _ :: r => warnings r
  end.

(** The events on DOM nodes of a trace: creation, attachment, removal. *)
Definition is_dom_event (e : Event) : bool :=
  match e with
  | CreateElement _ | AppendToBody _ | RemoveNode _ => true
  | _ => false
  end.

(** Every node of the containers was created before [next_node]. *)
Definition nodes_known (w : World) : Prop :=
  Forall (fun d => d < next_node w) (body w ++ issuesContainer w).

(** The two texts [getFixSuggestions] returns in place of a suggestion. *)
Definition error_placeholder : jsstring := js "Error analyzing accessibility issues".
Definition invalid_placeholder : jsstring := js "Invalid response format".

(** The failures of the backend for a prompt: the transport fails, the
    response has a non-success status, or the payload in the [response]
    field of the body is no JSON text. *)
Inductive BackendFailure (env : Env) (prompt : jsstring) : Prop :=
| NetworkFailure (e : exn) :
    fetch env (make_request prompt) = Throw e ->
    BackendFailure env prompt
| NonSuccessStatus (response : Response) :
    fetch env (make_request prompt) = Return response ->
    ok response = false ->
    BackendFailure env prompt
| UnparseablePayload (response : Response) (responseText : jsstring)
    (responseObj : value) (rawJSONString : jsstring) (e : exn) :
    fetch env (make_request prompt) = Return response ->
    ok response = true ->
    text response = Return responseText ->
    JSON_parse responseText = Return responseObj ->
    rawJSONString_of responseObj = Return rawJSONString ->
    JSON_parse rawJSONString = Throw e ->
    BackendFailure env prompt.

(** The cell at [index] was rendered to markup that is not blank: it has a
    model, the output container of its type exists, and the markup read
    back from the scratch container is not empty once trimmed. *)
Definition rendered_nonempty (env : Env) (cells : list (option Cell))
    (index : nat) : Prop :=
  exists cell m output,
    cells !! index = Some (Some cell)
    /\ model cell = Some m
    /\ select_output (type m) (node cell) = Some output
    /\ nonempty (trim (reparse env output)) = true.

(** The world in which the loop of the scanner runs: the scratch container
    [d] has been created and attached. *)
Definition scanning_world (w : World) : World :=
  let d := next_node w in
  {| notebook := notebook w;
     body := without d (body w) ++ [d];
     issuesContainer := without d (issuesContainer w);
     next_node := S d |}.

(** The element [applySuggestion] hands to the engine for the cell [cell']:
    a container that is not part of the document, holding the markup of
    the node of the cell. *)
Definition revalidated (env : Env) (cell' : Cell) : Element :=
  {| innerHTML := reparse env (node_innerHTML (node cell')); attached := false |}.

(** The world after [setSource] on the cell of the widget [this] and the
    creation of a scratch container, with the nodes [gone] removed from
    their parents, the last one first. *)
Definition applied_world (this : CellIssueWidget) (w : World) (cell' : Cell)
    (gone : list NodeId) : World :=
  {| notebook := <[widget_cellIndex this := Some cell']> (notebook w);
     body := foldr without (body w) gone;
     issuesContainer := foldr without (issuesContainer w) gone;
     next_node := S (next_node w) |}.

(** A returned field is well formed when it is a value [x || ''] can
    yield: the empty string, or a value that converts to [true]. *)
Definition or_empty_result (v : value) : Prop :=
  v = JString [] \/ ToBoolean v = true.

Definition is_string (v : value) : bool :=
  match v with JString _ => true | _ => false end.

(* ===================================================================== *)
(** ** One turn of the scanner's loop, case by case *)
(* ===================================================================== *)

(** The container the scanner hands to the engine for the markup [output]
    of a cell: attached to the document, holding the markup as read back. *)
Definition scanned (env : Env) (output : Html) : Element :=
  {| innerHTML := reparse env output; attached := true |}.

(** The outcome and the trace of the turn of the loop for the entry [c] at
    index [i], the scratch container being [d] and the issues so far
    [issues]: one constructor for each path through the body of the loop. *)
Inductive turn (env : Env) (d : NodeId) (i : nat) (c : option Cell)
    (issues : list CellAccessibilityIssue)
  : completion (list CellAccessibilityIssue) -> list Event -> Prop :=
| turn_missing :
    c = None ->
    turn env d i c issues (Return issues) [WarnSkippingCell i]
| turn_no_model (cell : Cell) :
    c = Some cell -> model cell = None ->
    turn env d i c issues (Return issues) [WarnSkippingCell i]
| turn_no_output (cell : Cell) (m : CellModel) :
    c = Some cell -> model cell = Some m ->
    select_output (type m) (node cell) = None ->
    turn env d i c issues (Return issues) []
| turn_blank (cell : Cell) (m : CellModel) (output : Html) :
    c = Some cell -> model cell = Some m ->
    select_output (type m) (node cell) = Some output ->
    nonempty (trim (reparse env output)) = false ->
    turn env d i c issues (Return issues) [SetInnerHTML d output]
| turn_clean (cell : Cell) (m : CellModel) (output : Html) (results : AxeResults) :
    c = Some cell -> model cell = Some m ->
    select_output (type m) (node cell) = Some output ->
    nonempty (trim (reparse env output)) = true ->
    axe_run env (scanned env output) axeConfig = Return results ->
    violations results = [] ->
    turn env d i c issues (Return issues)
      [SetInnerHTML d output; AxeRun (scanned env output) axeConfig]
| turn_issue (cell : Cell) (m : CellModel) (output : Html) (results : AxeResults) :
    c = Some cell -> model cell = Some m ->
    select_output (type m) (node cell) = Some output ->
    nonempty (trim (reparse env output)) = true ->
    axe_run env (scanned env output) axeConfig = Return results ->
    violations results <> [] ->
    turn env d i c issues
      (Return (issues ++ [{| cellIndex := i; cellType := type m;
                             axeResults := violations results;
                             contentRaw := source m |}]))
      [SetInnerHTML d output; AxeRun (scanned env output) axeConfig]
| turn_throw (cell : Cell) (m : CellModel) (output : Html) (e : exn) :
    c = Some cell -> model cell = Some m ->
    select_output (type m) (node cell) = Some output ->
    nonempty (trim (reparse env output)) = true ->
    axe_run env (scanned env output) axeConfig = Throw e ->
    turn env d i c issues (Throw e)
      [SetInnerHTML d output; AxeRun (scanned env output) axeConfig].

(** The loop from index [i] on, as a sequence of turns: it ends with the
    cells, or with the first turn that throws. *)
Inductive turns (env : Env) (d : NodeId)
  : nat -> list (option Cell) -> list CellAccessibilityIssue ->
    completion (list CellAccessibilityIssue) -> list Event -> Prop :=
| turns_done (i : nat) (issues : list CellAccessibilityIssue) :
    turns env d i [] issues (Return issues) []
| turns_stop (i : nat) (c : option Cell) (rest : list (option Cell))
    (issues : list CellAccessibilityIssue) (e : exn) (t : list Event) :
    turn env d i c issues (Throw e) t ->
    turns env d i (c :: rest) issues (Throw e) t
| turns_next (i : nat) (c : option Cell) (rest : list (option Cell))
    (issues issues1 : list CellAccessibilityIssue) (t1 : list Event)
    (r : completion (list CellAccessibilityIssue)) (t2 : list Event) :
    turn env d i c issues (Return issues1) t1 ->
    turns env d (S i) rest issues1 r t2 ->
    turns env d i (c :: rest) issues r (t1 ++ t2).

(** The world a scan leaves behind. *)
Definition scan_done_world (w : World) : World :=
  {| notebook := notebook w;
     body := without (next_node w) (body (scanning_world w));
     issuesContainer := without (next_node w) (issuesContainer (scanning_world w));
     next_node := S (next_node w) |}.

(** The cell at [index] is one the scanner hands to the engine: it has the
    model [m], and [output] is the markup of its output container, not
    blank once read back and trimmed. *)
Definition checkable (env : Env) (cells : list (option Cell)) (index : nat)
    (m : CellModel) (output : Html) : Prop :=
  exists cell,
    cells !! index = Some (Some cell)
    /\ model cell = Some m
    /\ select_output (type m) (node cell) = Some output
    /\ nonempty (trim (reparse env output)) = true.

(** The entry at [index] is one the scanner warns about: a missing cell or
    a cell without a model. *)
Definition unusable (cells : list (option Cell)) (index : nat) : Prop :=
  cells !! index = Some None
  \/ exists cell, cells !! index = Some (Some cell) /\ model cell = None.

(** The events that change the notebook or the widgets. *)
Definition is_mutation (e : Event) : bool :=
  match e with
  | SetSource _ _ | Dispose _ => true
  | _ => false
  end.

(** [s.includes(pat)]: does [pat] occur in [s]? *)
Definition includes (pat s : jsstring) : bool := Demo.contains pat s.

(* ===================================================================== *)
(** ** Navigation: [CellIssueWidget.navigateToCell] *)
(* ===================================================================== *)

(** The two inline style properties the code writes. *)
Record Style := { transition : jsstring; backgroundColor : jsstring }.

(** The page as [navigateToCell] sees it.  [page_cells] is the answer of
    [document.querySelector('.jp-Notebook')?.querySelectorAll('.jp-Cell')]:
    [None] when no element has the class [jp-Notebook], else the cell
    elements of the first such element in document order.  [styles] is the
    inline style of every element, [timers] the pending timeouts, oldest
    first: the delay in milliseconds and the element the callback has
    captured. *)
Record Page := {
  page_cells : option (list NodeId);
  styles : NodeId -> Style;
  timers : list (N * NodeId)
}.

Inductive PageEvent :=
| ScrollIntoView (d : NodeId).    (* smooth, centred *)

Definition set_style (d : NodeId) (f : Style -> Style) (p : Page) : Page :=
  {| page_cells := page_cells p;
     styles := fun x => if decide (x = d) then f (styles p x) else styles p x;
     timers := timers p |}.

Definition setTimeout (delay : N) (d : NodeId) (p : Page) : Page :=
  {| page_cells := page_cells p;
     styles := styles p;
     timers := timers p ++ [(delay, d)] |}.

Definition navigateToCell (index : nat) (p : Page) : Page * list PageEvent :=
  match page_cells p with
  | None => (p, [])
  | Some cells =>
      match cells !! index with
      | None => (p, [])
      | Some targetCell =>
          let p1 := set_style targetCell
                      (fun st => {| transition := js "background-color 0.5s ease";
                                    backgroundColor := backgroundColor st |}) p in
          let p2 := set_style targetCell
                      (fun st => {| transition := transition st;
                                    backgroundColor := js "#FFFFC5" |}) p1 in
          (setTimeout 2000 targetCell p2, [ScrollIntoView targetCell])
      end
  end.

(** The oldest pending timeout fires: its callback resets the background
    of the element it has captured.  All timeouts of the code have the same
    delay, so they fire in the order they were set. *)
Definition timeout_fires (p : Page) : Page :=
  match timers p with
  | [] => p
  | (_, targetCell) :: rest =>
      {| page_cells := page_cells p;
         styles := styles (set_style targetCell
                             (fun st => {| transition := transition st;
                                           backgroundColor := [] |}) p);
         timers := rest |}
  end.

(* ===================================================================== *)
(** ** The plugin: [A11yMainPanel.setNotebook] and [activate] *)
(* ===================================================================== *)

(** [labShell.currentWidget], as the handler of [currentChanged] tests it;
    the panels are of any type [P]. *)
Inductive ShellWidget (P : Type) :=
| IsNotebookPanel (nb : P)      (* current instanceof NotebookPanel *)
| OtherWidget                   (* any other widget *)
| NoWidget.                     (* null *)
Arguments IsNotebookPanel {P} nb.
Arguments OtherWidget {P}.
Arguments NoWidget {P}.

(** [setNotebook]: the new value of the field [currentNotebook]. *)
Definition setNotebook {P} (nb : P) (currentNotebook : option P) : option P :=
  Some nb.

(** The handler connected to [labShell.currentChanged]. *)
Definition on_currentChanged {P} (current : ShellWidget P)
    (currentNotebook : option P) : option P :=
  match current with
  | IsNotebookPanel nb => setNotebook nb currentNotebook
  | _ => currentNotebook
  end.

Definition is_notebook {P} (current : ShellWidget P) : bool :=
  match current with
  | IsNotebookPanel _ => true
  | _ => false
  end.

(** [activate] and the changes of the current widget that follow it: the
    panel starts without a notebook. *)
Definition activate {P} (changes : list (ShellWidget P)) : option P :=
  fold_left (fun cur current => on_currentChanged current cur) changes None.

(* ===================================================================== *)
(** ** Images: [fetchImageAsBase64] *)
(* ===================================================================== *)

(** [s.split(',')] for a separator of one code unit. *)
Fixpoint split_on (sep : N) (s : jsstring) : list jsstring :=
  match s with
  | [] => [[]]
  | c :: r =>
      if (c =? sep)%N then [] :: split_on sep r
      else match split_on sep r with
           | seg :: segs => (c :: seg) :: segs
           | [] => [[c]]
           end
  end.

(** The transport and the file reader: the blob [axios.get] answers with,
    and the data URL [readAsDataURL] makes of a blob ([Throw] when the
    reader signals an error). *)
Record ImageEnv (Blob : Type) := {
  axios_get : jsstring -> completion Blob;
  readAsDataURL : Blob -> completion jsstring
}.
Arguments axios_get {Blob} _ _.
Arguments readAsDataURL {Blob} _ _.

(** The result is [None] for [undefined]. *)
Definition fetchImageAsBase64 {Blob} (env : ImageEnv Blob) (imageUrl : jsstring)
  : completion (option jsstring) :=
  match axios_get env imageUrl with
  | Throw e => Throw e
  | Return imageBlob =>
      match readAsDataURL env imageBlob with
      | Throw e => Throw e
      | Return result => Return (split_on 44 result !! 1)
      end
  end.

(* ===================================================================== *)
(** ** Further sample surroundings *)
(* ===================================================================== *)

Module Demo2.

(** A page with three cells, named 10, 11 and 12, nothing styled. *)
Definition page : Page :=
  {| page_cells := Some [10; 11; 12];
     styles := fun _ => {| transition := []; backgroundColor := js "white" |};
     timers := [] |}.

(** A reader that answers with a PNG data URL whatever the blob. *)
Definition image_env : ImageEnv unit :=
  {| axios_get := fun _ => Return tt;
     readAsDataURL := fun _ => Return (js "data:image/png;base64,iVBORw0KGgo=") |}.

(** A reply whose payload has a suggestion and an explanation. *)
Definition reply_env : Env :=
  Demo.env_with (Demo.respond 200 Demo.fenced_body) Demo.axe_image_alt.

(** A reply whose payload has an explanation only. *)
Definition explanation_only_body : jsstring :=
  qjs "{'response':'{\'explanation\':\'Nothing to change\'}'}".

(** The payload of the fenced scenario: the JSON text of a suggestion
    between the opening and the closing marker. *)
Definition fenced_payload : jsstring :=
  qjs "```json|{'exampleCellContent':'alt text here','explanation':'added alt'}|```".

(** A reply as the service sends it: the payload of the fenced scenario in
    the [response] field, among other members. *)
Definition service_body : jsstring :=
  qjs "{ 'model': 'mistral', 'created_at': '2025-01-01T00:00:00Z', 'response': '```json\n{\'exampleCellContent\':\'alt text here\',\'explanation\':\'added alt\'}\n```', 'done': true, 'total_duration': 4935886791 }".

End Demo2.

(* ===================================================================== *)
(** ** [JSON.parse] never runs out of budget *)
(* ===================================================================== *)

Lemma skip_ws_length (s : jsstring) : length (skip_ws s) <= length s.
Proof.
  induction s as [|c r IH]; simpl; [lia|].
  destruct (is_json_ws c); simpl; lia.
Qed.

Lemma strip_prefix_length (p s r : jsstring) :
  strip_prefix p s = Some r -> length s = length p + length r.
Proof.
  revert s; induction p as [|a p IH]; intros s H; simpl in *.
  - injection H as ->. reflexivity.
  - destruct s as [|b s]; [discriminate|].
    destruct (a =? b)%N; [|discriminate].
    apply IH in H. simpl. lia.
Qed.

Lemma cons_chars_inv c o cs rest :
  cons_chars c o = Some (cs, rest) ->
  exists cs', o = Some (cs', rest) /\ cs = c :: cs'.
Proof.
  destruct o as [[cs' rest']|]; simpl; intros H; [|discriminate].
  injection H as <- <-. eauto.
Qed.

Lemma parse_chars_length_aux (n : nat) :
  forall s cs rest, length s <= n ->
    parse_chars s = Some (cs, rest) -> length rest < length s.
Proof.
  induction n as [|n IH]; intros s cs rest Hn H.
  - destruct s; [discriminate|simpl in Hn; lia].
  - destruct s as [|c r]; [discriminate|].
    simpl in Hn. simpl in H.
    destruct (c =? 34)%N.
    { injection H as _ <-. simpl. lia. }
    destruct (c =? 92)%N.
    { destruct r as [|e r1]; [discriminate|].
      destruct (e =? 117)%N.
      - destruct r1 as [|h1 [|h2 [|h3 [|h4 r2]]]]; try discriminate.
        destruct (hex4 h1 h2 h3 h4); [|discriminate].
        apply cons_chars_inv in H as (cs' & H & _).
        apply IH in H; simpl in *; lia.
      - destruct (escape_char e); [|discriminate].
        apply cons_chars_inv in H as (cs' & H & _).
        apply IH in H; simpl in *; lia. }
    destruct (c <? 32)%N; [discriminate|].
    apply cons_chars_inv in H as (cs' & H & _).
    apply IH in H; simpl in *; lia.
Qed.

Lemma parse_chars_length (s cs rest : jsstring) :
  parse_chars s = Some (cs, rest) -> length rest < length s.
Proof. apply (parse_chars_length_aux (length s)). lia. Qed.

Lemma take_digits_length (s : jsstring) :
  forall acc len m len' rest,
    take_digits acc len s = (m, len', rest) ->
    length rest + len' = length s + len.
Proof.
  induction s as [|c r IH]; intros acc len m len' rest H; simpl in H.
  - injection H as _ <- <-. simpl. lia.
  - destruct (digit_val c).
    + apply IH in H. simpl. lia.
    + injection H as _ <- <-. simpl. lia.
Qed.

Lemma parse_sign_length s sign r :
  parse_sign s = (sign, r) -> length r <= length s.
Proof.
  destruct s as [|c s']; simpl.
  - intros H; injection H as _ <-. simpl; lia.
  - destruct (c =? 45)%N; intros H; injection H as _ <-; simpl; lia.
Qed.

Lemma parse_int_length s m r :
  parse_int s = Some (m, r) -> length r < length s.
Proof.
  destruct s as [|c s']; [discriminate|].
  unfold parse_int.
  destruct (c =? 48)%N.
  - intros H; injection H as _ <-. simpl; lia.
  - destruct (take_digits 0 0 (c :: s')) as [[m0 k] rest] eqn:E.
    destruct k; [discriminate|].
    intros H; injection H as _ <-.
    apply take_digits_length in E. lia.
Qed.

Lemma parse_frac_length m s m' k r :
  parse_frac m s = Some (m', k, r) -> length r <= length s.
Proof.
  destruct s as [|c s']; simpl.
  - intros H; injection H as _ _ <-. simpl; lia.
  - destruct (c =? 46)%N.
    + destruct (take_digits m 0 s') as [[m0 k0] rest] eqn:E.
      destruct k0; [discriminate|].
      intros H; injection H as _ _ <-.
      apply take_digits_length in E. simpl. lia.
    + intros H; injection H as _ _ <-. simpl; lia.
Qed.

Lemma parse_exp_length s e r :
  parse_exp s = Some (e, r) -> length r <= length s.
Proof.
  destruct s as [|c s']; simpl.
  - intros H; injection H as _ <-. simpl; lia.
  - destruct ((c =? 101)%N || (c =? 69)%N).
    + destruct s' as [|d s''].
      * simpl. discriminate.
      * destruct (d =? 45)%N; [|destruct (d =? 43)%N].
        all: match goal with
             | |- context [take_digits 0 0 ?x] =>
                 destruct (take_digits 0 0 x) as [[e0 k0] rest] eqn:E
             end.
        all: destruct k0; [discriminate|].
        all: intros H; injection H as _ <-.
        all: apply take_digits_length in E; simpl in *; lia.
    + intros H; injection H as _ <-. simpl; lia.
Qed.

Lemma parse_number_length s n r :
  parse_number s = Some (n, r) -> length r < length s.
Proof.
  unfold parse_number.
  destruct (parse_sign s) as [sign s1] eqn:E1.
  destruct (parse_int s1) as [[m s2]|] eqn:E2; [|discriminate].
  destruct (parse_frac m s2) as [[[m' k] s3]|] eqn:E3; [|discriminate].
  destruct (parse_exp s3) as [[e s4]|] eqn:E4; [|discriminate].
  intros H; injection H as _ <-.
  apply parse_sign_length in E1. apply parse_int_length in E2.
  apply parse_frac_length in E3. apply parse_exp_length in E4. lia.
Qed.

Lemma parse_scalar_length s v rest :
  parse_scalar s = POk v rest -> length rest < length s.
Proof.
  destruct s as [|c r]; [discriminate|].
  unfold parse_scalar.
  destruct (c =? 34)%N.
  - destruct (parse_chars r) as [[cs rest']|] eqn:E; [|discriminate].
    intros H; injection H as _ <-.
    apply parse_chars_length in E. simpl. lia.
  - destruct (strip_prefix (js "true") (c :: r)) eqn:E1.
    { intros H; injection H as _ <-.
      apply strip_prefix_length in E1. rewrite E1. simpl. lia. }
    destruct (strip_prefix (js "false") (c :: r)) eqn:E2.
    { intros H; injection H as _ <-.
      apply strip_prefix_length in E2. rewrite E2. simpl. lia. }
    destruct (strip_prefix (js "null") (c :: r)) eqn:E3.
    { intros H; injection H as _ <-.
      apply strip_prefix_length in E3. rewrite E3. simpl. lia. }
    destruct (parse_number (c :: r)) as [[n rest']|] eqn:E4; [|discriminate].
    intros H; injection H as _ <-.
    apply parse_number_length in E4. exact E4.
Qed.

Lemma parse_scalar_no_fuel s : parse_scalar s <> PFuel.
Proof.
  destruct s as [|c r]; [discriminate|].
  unfold parse_scalar.
  destruct (c =? 34)%N.
  - destruct (parse_chars r) as [[? ?]|]; discriminate.
  - destruct (strip_prefix (js "true") (c :: r)); [discriminate|].
    destruct (strip_prefix (js "false") (c :: r)); [discriminate|].
    destruct (strip_prefix (js "null") (c :: r)); [discriminate|].
    destruct (parse_number (c :: r)) as [[? ?]|]; discriminate.
Qed.

#[local] Arguments parse_scalar : simpl never.

(** A successful parsing step leaves strictly less text than it was given. *)
Lemma parse_length (fuel : nat) :
  (forall s v rest, parse_value fuel s = POk v rest -> length rest < length s)
  /\ (forall s acc v rest,
        parse_elements fuel s acc = POk v rest -> length rest < length s)
  /\ (forall s acc v rest,
        parse_members fuel s acc = POk v rest -> length rest < length s).
Proof.
  induction fuel as [|f (IHv & IHe & IHm)].
  { repeat split; intros; discriminate. }
  repeat split.
  - intros s v rest H. simpl in H.
    pose proof (skip_ws_length s) as Hs.
    destruct (skip_ws s) as [|c r]; [discriminate|]. simpl in Hs.
    destruct (c =? 123)%N.
    { pose proof (skip_ws_length r) as Hr.
      destruct (skip_ws r) as [|c' r']; [discriminate|]. simpl in Hr.
      destruct (c' =? 125)%N.
      - injection H as _ <-. lia.
      - apply IHm in H. simpl in H. lia. }
    destruct (c =? 91)%N.
    { pose proof (skip_ws_length r) as Hr.
      destruct (skip_ws r) as [|c' r']; [discriminate|]. simpl in Hr.
      destruct (c' =? 93)%N.
      - injection H as _ <-. lia.
      - apply IHe in H. simpl in H. lia. }
    apply parse_scalar_length in H. simpl in H. lia.
  - intros s acc v rest H. simpl in H.
    destruct (parse_value f s) as [v1 r1| |] eqn:E; try discriminate.
    apply IHv in E.
    pose proof (skip_ws_length r1) as Hs.
    destruct (skip_ws r1) as [|c r]; [discriminate|]. simpl in Hs.
    destruct (c =? 44)%N.
    { apply IHe in H. lia. }
    destruct (c =? 93)%N; [|discriminate].
    injection H as _ <-. lia.
  - intros s acc v rest H. simpl in H.
    pose proof (skip_ws_length s) as Hs.
    destruct (skip_ws s) as [|q r0]; [discriminate|]. simpl in Hs.
    destruct (q =? 34)%N; [|discriminate].
    destruct (parse_chars r0) as [[k r1]|] eqn:Ek; [|discriminate].
    apply parse_chars_length in Ek.
    pose proof (skip_ws_length r1) as Hs1.
    destruct (skip_ws r1) as [|colon r2]; [discriminate|]. simpl in Hs1.
    destruct (colon =? 58)%N; [|discriminate].
    destruct (parse_value f r2) as [v1 r3| |] eqn:E; try discriminate.
    apply IHv in E.
    pose proof (skip_ws_length r3) as Hs3.
    destruct (skip_ws r3) as [|c r]; [discriminate|]. simpl in Hs3.
    destruct (c =? 44)%N.
    { apply IHm in H. lia. }
    destruct (c =? 125)%N; [|discriminate].
    injection H as _ <-. lia.
Qed.

(** With a budget of twice the length of the text, plus one, no parsing
    step runs out of budget. *)
Lemma parse_fuel_enough (fuel : nat) :
  (forall s, 2 * length s + 1 <= fuel -> parse_value fuel s <> PFuel)
  /\ (forall s acc, 2 * length s + 2 <= fuel ->
        parse_elements fuel s acc <> PFuel)
  /\ (forall s acc, 2 * length s + 1 <= fuel ->
        parse_members fuel s acc <> PFuel).
Proof.
  induction fuel as [|f (IHv & IHe & IHm)].
  { repeat split; intros; lia. }
  repeat split.
  - intros s Hf. simpl.
    pose proof (skip_ws_length s) as Hs.
    destruct (skip_ws s) as [|c r]; [discriminate|]. simpl in Hs.
    destruct (c =? 123)%N.
    { pose proof (skip_ws_length r) as Hr.
      destruct (skip_ws r) as [|c' r']; [discriminate|]. simpl in Hr.
      destruct (c' =? 125)%N; [discriminate|].
      apply IHm. simpl. lia. }
    destruct (c =? 91)%N.
    { pose proof (skip_ws_length r) as Hr.
      destruct (skip_ws r) as [|c' r']; [discriminate|]. simpl in Hr.
      destruct (c' =? 93)%N; [discriminate|].
      apply IHe. simpl. lia. }
    apply parse_scalar_no_fuel.
  - intros s acc Hf. simpl.
    destruct (parse_value f s) as [v1 r1| |] eqn:E.
    + apply (proj1 (parse_length f)) in E.
      pose proof (skip_ws_length r1) as Hs.
      destruct (skip_ws r1) as [|c r]; [discriminate|]. simpl in Hs.
      destruct (c =? 44)%N.
      { apply IHe. lia. }
      destruct (c =? 93)%N; discriminate.
    + discriminate.
    + exfalso. revert E. apply IHv. lia.
  - intros s acc Hf. simpl.
    pose proof (skip_ws_length s) as Hs.
    destruct (skip_ws s) as [|q r0]; [discriminate|]. simpl in Hs.
    destruct (q =? 34)%N; [|discriminate].
    destruct (parse_chars r0) as [[k r1]|] eqn:Ek; [|discriminate].
    apply parse_chars_length in Ek.
    pose proof (skip_ws_length r1) as Hs1.
    destruct (skip_ws r1) as [|colon r2]; [discriminate|]. simpl in Hs1.
    destruct (colon =? 58)%N; [|discriminate].
    destruct (parse_value f r2) as [v1 r3| |] eqn:E.
    + apply (proj1 (parse_length f)) in E.
      pose proof (skip_ws_length r3) as Hs3.
      destruct (skip_ws r3) as [|c r]; [discriminate|]. simpl in Hs3.
      destruct (c =? 44)%N.
      { apply IHm. lia. }
      destruct (c =? 125)%N; discriminate.
    + discriminate.
    + exfalso. revert E. apply IHv. lia.
Qed.

(** [JSON_parse] decides every text: its budget is never the reason for a
    [SyntaxError]. *)
Lemma JSON_parse_budget (text : jsstring) :
  parse_value (parse_fuel text) text <> PFuel.
Proof.
  apply (proj1 (parse_fuel_enough (parse_fuel text))).
  unfold parse_fuel. lia.
Qed.

(* ===================================================================== *)
(** ** The backend adapter *)
(* ===================================================================== *)

Section Backend.

Variable env : Env.
Variable prompt : jsstring.
Variable w : World.

(** Whatever is thrown before the payload is looked at ends in the outer
    handler. *)
Lemma getFixSuggestions_unreachable (e : exn) :
  fetch env (make_request prompt) = Throw e ->
  getFixSuggestions env prompt w
  = (Return (JString error_placeholder, JString []), w,
     [ErrorGettingSuggestions e]).
Proof.
  intros H. unfold getFixSuggestions, try_catch, bind, lift.
  rewrite H. reflexivity.
Qed.

(** A response whose [ok] is false makes the code throw, and the outer
    handler answers. *)
Lemma getFixSuggestions_status_thrown (response : Response) :
  fetch env (make_request prompt) = Return response ->
  ok response = false ->
  getFixSuggestions env prompt w
  = (Return (JString error_placeholder, JString []), w,
     [ErrorGettingSuggestions (HttpError (status response))]).
Proof.
  intros H Hok. unfold getFixSuggestions, try_catch, bind, lift.
  rewrite H, Hok. reflexivity.
Qed.

(** C1, as amended: when the transport response arrives with a non-success
    status, [getFixSuggestions] returns the placeholder
    'Error analyzing accessibility issues' as the replacement text and the
    empty string as the explanation, and reports the status on the console. *)
Theorem getFixSuggestions_non_success (response : Response) :
  fetch env (make_request prompt) = Return response ->
  ok response = false ->
  getFixSuggestions env prompt w
  = (Return (JString error_placeholder, JString []), w,
     [ErrorGettingSuggestions (HttpError (status response))])
  /\ error_placeholder = js "Error analyzing accessibility issues"
  /\ error_placeholder <> [].
Proof.
  intros H Hok. split; [apply getFixSuggestions_status_thrown; assumption|].
  split; [reflexivity|discriminate].
Qed.

(** The steps of the [try] block once the transport has succeeded, as
    equations on [getFixSuggestions]. *)
Lemma getFixSuggestions_ok (response : Response) (responseText : jsstring)
    (responseObj : value) :
  fetch env (make_request prompt) = Return response ->
  ok response = true ->
  text response = Return responseText ->
  JSON_parse responseText = Return responseObj ->
  getFixSuggestions env prompt w
  = match rawJSONString_of responseObj with
    | Throw e => (Return (JString invalid_placeholder, JString []), w,
                  [ErrorFailedToParse e])
    | Return raw =>
        match JSON_parse raw with
        | Throw e => (Return (JString invalid_placeholder, JString []), w,
                      [ErrorFailedToParse e])
        | Return result =>
            match suggestion_of result with
            | Throw e => (Return (JString invalid_placeholder, JString []), w,
                          [ErrorFailedToParse e])
            | Return p => (Return p, w, [])
            end
        end
    end.
Proof.
  intros H Hok Ht Hp. unfold getFixSuggestions, try_catch, bind, lift, throw, ret.
  rewrite H, Hok. simpl. rewrite Ht, Hp.
  destruct (rawJSONString_of responseObj) as [raw|e]; [|reflexivity].
  destruct (JSON_parse raw) as [result|e]; [|reflexivity].
  destruct (suggestion_of result) as [p|e]; reflexivity.
Qed.

End Backend.

Lemma getFixSuggestions_non_success_witness :
  getFixSuggestions (Demo.env_with (Demo.respond 500 Demo.fenced_body) Demo.axe_image_alt)
    (formatPrompt Demo.img_issue) (Demo.world_of [])
  = (Return (JString error_placeholder, JString []), Demo.world_of [],
     [ErrorGettingSuggestions (HttpError 500)]).
Proof.
  apply (getFixSuggestions_non_success _ _ _
           {| status := 500%N; text := Return Demo.fenced_body |});
    reflexivity.
Defined.

(** C1, as stated, fails for a response with status 500: the replacement
    text is not empty (and the explanation is). *)
Lemma getFixSuggestions_500_not_empty :
  let env := Demo.env_with (Demo.respond 500 []) Demo.axe_image_alt in
  ok {| status := 500%N; text := Return [] |} = false
  /\ ~ (exists explanation : jsstring,
          fst (fst (getFixSuggestions env [] (Demo.world_of [])))
          = Return (JString [], JString explanation)
          /\ explanation <> []).
Proof.
  split; [reflexivity|].
  intros (explanation & H & _). vm_compute in H. discriminate H.
Qed.

(** C3, at a payload whose [exampleCellContent] is the number 42: the first
    component of the result is that number, not a string. *)
Theorem getFixSuggestions_number_field :
  let env := Demo.env_with (Demo.respond 200 Demo.number_body) Demo.axe_image_alt in
  getFixSuggestions env [] (Demo.world_of [])
  = (Return (JNumber (mkNumber false 42 0), JString []), Demo.world_of [], [])
  /\ is_string (JNumber (mkNumber false 42 0)) = false.
Proof. split; vm_compute; reflexivity. Qed.

Lemma or_empty_well_formed (x : option value) : or_empty_result (or_empty x).
Proof.
  unfold or_empty_result, or_empty.
  destruct x as [v|]; [|left; reflexivity].
  destruct (ToBoolean v) eqn:E; [right; exact E|left; reflexivity].
Qed.

Lemma suggestion_of_well_formed (result : value) (a b : value) :
  suggestion_of result = Return (a, b) ->
  or_empty_result a /\ or_empty_result b.
Proof.
  unfold suggestion_of.
  destruct (get_prop result (js "exampleCellContent")) as [x|e];
    destruct (get_prop result (js "explanation")) as [y|e'];
    try discriminate.
  intros H; injection H as <- <-.
  split; apply or_empty_well_formed.
Qed.

(** [getFixSuggestions] always returns: it never throws, it leaves the
    world alone, and each component of the pair is the empty string or a
    value that converts to [true] (hence neither [null] nor [undefined]). *)
Lemma getFixSuggestions_resolves (env : Env) (prompt : jsstring) (w : World) :
  exists a b t,
    getFixSuggestions env prompt w = (Return (a, b), w, t)
    /\ or_empty_result a /\ or_empty_result b.
Proof.
  assert (Hph : forall ph : jsstring, or_empty_result (JString [])) by (left; reflexivity).
  assert (Hne : forall v, ToBoolean v = true -> or_empty_result v) by (right; assumption).
  destruct (fetch env (make_request prompt)) as [response|e] eqn:Hf.
  2:{ do 3 eexists. split; [apply getFixSuggestions_unreachable, Hf|].
      split; [apply Hne; reflexivity|left; reflexivity]. }
  destruct (ok response) eqn:Hok.
  2:{ do 3 eexists. split; [apply (getFixSuggestions_status_thrown _ _ _ _ Hf Hok)|].
      split; [apply Hne; reflexivity|left; reflexivity]. }
  destruct (text response) as [responseText|e] eqn:Ht.
  2:{ do 3 eexists. split.
      - unfold getFixSuggestions, try_catch, bind, lift, throw, ret.
        rewrite Hf, Hok. simpl. rewrite Ht. reflexivity.
      - split; [apply Hne; reflexivity|left; reflexivity]. }
  destruct (JSON_parse responseText) as [responseObj|e] eqn:Hp.
  2:{ do 3 eexists. split.
      - unfold getFixSuggestions, try_catch, bind, lift, throw, ret.
        rewrite Hf, Hok. simpl. rewrite Ht, Hp. reflexivity.
      - split; [apply Hne; reflexivity|left; reflexivity]. }
  rewrite (getFixSuggestions_ok _ _ _ _ _ _ Hf Hok Ht Hp).
  destruct (rawJSONString_of responseObj) as [raw|e].
  2:{ do 3 eexists. split; [reflexivity|].
      split; [apply Hne; reflexivity|left; reflexivity]. }
  destruct (JSON_parse raw) as [result|e].
  2:{ do 3 eexists. split; [reflexivity|].
      split; [apply Hne; reflexivity|left; reflexivity]. }
  destruct (suggestion_of result) as [[a b]|e] eqn:Hs.
  2:{ do 3 eexists. split; [reflexivity|].
      split; [apply Hne; reflexivity|left; reflexivity]. }
  do 3 eexists. split; [reflexivity|].
  apply suggestion_of_well_formed in Hs. exact Hs.
Qed.

(** When the decoded payload is an object whose two fields are strings or
    absent, both components of the result are strings. *)
Lemma suggestion_of_strings (ms : list (jsstring * value)) :
  (forall k v, obj_get k ms = Some v -> is_string v = true) ->
  exists a b, suggestion_of (JObject ms) = Return (JString a, JString b).
Proof.
  intros H. unfold suggestion_of, get_prop.
  assert (Hs : forall k, exists s, or_empty (obj_get k ms) = JString s).
  { intros k. destruct (obj_get k ms) as [v|] eqn:E; simpl.
    - apply H in E. destruct v; try discriminate.
      simpl. destruct s; eauto.
    - eauto. }
  destruct (Hs (js "exampleCellContent")) as (a & ->).
  destruct (Hs (js "explanation")) as (b & ->).
  eauto.
Qed.

(** C8: when the transport succeeds and the [response] field of the body
    is the fenced payload of the scenario (the JSON text of the suggestion
    'alt text here' with the explanation 'added alt', between the opening
    and the closing marker), whatever else the body holds, the result is
    the pair of 'alt text here' and 'added alt' and nothing is logged; the
    fence markers are stripped from the payload before it is parsed; the
    body of the scenario ([Demo.fenced_body]) is such a body; and a field
    the payload lacks comes back as the empty string. *)
Theorem getFixSuggestions_fenced (env : Env) (prompt : jsstring) (w : World)
    (response : Response) (responseText : jsstring) (responseObj : value) :
  fetch env (make_request prompt) = Return response ->
  ok response = true ->
  text response = Return responseText ->
  JSON_parse responseText = Return responseObj ->
  get_prop responseObj (js "response")
  = Return (Some (JString Demo2.fenced_payload)) ->
  getFixSuggestions env prompt w
  = (Return (JString (js "alt text here"), JString (js "added alt")), w, [])
  /\ rawJSONString_of responseObj
     = Return (qjs "{'exampleCellContent':'alt text here','explanation':'added alt'}")
  /\ (exists scenarioObj,
        JSON_parse Demo.fenced_body = Return scenarioObj
        /\ get_prop scenarioObj (js "response")
           = Return (Some (JString Demo2.fenced_payload)))
  /\ suggestion_of (JObject [(js "explanation", JString (js "added alt"))])
     = Return (JString [], JString (js "added alt"))
  /\ suggestion_of (JObject []) = Return (JString [], JString []).
Proof.
  intros Hf Hok Ht Hp Hg.
  assert (Hr : rawJSONString_of responseObj
               = Return (qjs "{'exampleCellContent':'alt text here','explanation':'added alt'}")).
  { unfold rawJSONString_of. rewrite Hg. vm_compute. reflexivity. }
  split.
  - rewrite (getFixSuggestions_ok _ _ _ _ _ _ Hf Hok Ht Hp), Hr.
    vm_compute. reflexivity.
  - split; [exact Hr|]. split.
    + eexists. split; vm_compute; reflexivity.
    + split; vm_compute; reflexivity.
Qed.

Lemma getFixSuggestions_fenced_witness :
  getFixSuggestions (Demo.env_with (Demo.respond 200 Demo2.service_body) Demo.axe_image_alt)
    (formatPrompt Demo.img_issue) (Demo.world_of [])
  = (Return (JString (js "alt text here"), JString (js "added alt")),
     Demo.world_of [], []).
Proof.
  apply (getFixSuggestions_fenced _ _ _
           {| status := 200%N; text := Return Demo2.service_body |}
           Demo2.service_body
           (JObject [(js "model", JString (js "mistral"));
                     (js "created_at", JString (js "2025-01-01T00:00:00Z"));
                     (js "response", JString Demo2.fenced_payload);
                     (js "done", JBool true);
                     (js "total_duration",
                      JNumber (mkNumber false 4935886791 0))]));
    vm_compute; reflexivity.
Defined.

(* ===================================================================== *)
(** ** Failed suggestions and [applySuggestion] *)
(* ===================================================================== *)

Lemma placeholders_not_empty :
  error_placeholder <> [] /\ invalid_placeholder <> [].
Proof. split; discriminate. Qed.

Lemma getFixSuggestions_failure (env : Env) (prompt : jsstring) (w : World) :
  BackendFailure env prompt ->
  exists ph t,
    getFixSuggestions env prompt w = (Return (JString ph, JString []), w, t)
    /\ (ph = error_placeholder \/ ph = invalid_placeholder).
Proof.
  intros [e Hf|response Hf Hok|response responseText responseObj raw e
                                 Hf Hok Ht Hp Hr Hi].
  - exists error_placeholder. eexists.
    split; [apply getFixSuggestions_unreachable, Hf|left; reflexivity].
  - exists error_placeholder. eexists.
    split; [apply (getFixSuggestions_status_thrown _ _ _ _ Hf Hok)|left; reflexivity].
  - exists invalid_placeholder. eexists.
    rewrite (getFixSuggestions_ok _ _ _ _ _ _ Hf Hok Ht Hp), Hr, Hi.
    split; [reflexivity|right; reflexivity].
Qed.

(** The guard of [applySuggestion] on the stored suggestion. *)
Lemma applySuggestion_falsy (env : Env) (this : CellIssueWidget) (w : World) :
  ToBoolean (suggestion this) = false ->
  applySuggestion env this w = (Return this, w, []).
Proof.
  intros H. unfold applySuggestion. rewrite H.
  rewrite orb_true_r. reflexivity.
Qed.

(** What a widget stores after a backend failure (network failure,
    non-success status, unparseable payload): a non-empty placeholder,
    'Error analyzing accessibility issues' or 'Invalid response format',
    with an empty explanation; [applySuggestion] returns without touching
    the notebook when the stored suggestion is the empty string. *)
Theorem failure_stores_placeholder (env : Env) (issue : CellAccessibilityIssue)
    (this : CellIssueWidget) (w : World) :
  BackendFailure env (formatPrompt issue) ->
  (exists ph t,
      suggestion_arrives env issue this w
      = (Return (on_suggestion this (JString ph, JString [])), w, t)
      /\ (ph = error_placeholder \/ ph = invalid_placeholder)
      /\ suggestion (on_suggestion this (JString ph, JString [])) = JString ph
      /\ ph <> [])
  /\ (forall (env' : Env) (this' : CellIssueWidget) (w' : World),
        suggestion this' = JString [] ->
        applySuggestion env' this' w' = (Return this', w', [])).
Proof.
  intros Hfail. split.
  - destruct (getFixSuggestions_failure env _ w Hfail) as (ph & t & Hg & Hph).
    exists ph, (t ++ []). repeat split.
    + unfold suggestion_arrives, bind. rewrite Hg. reflexivity.
    + exact Hph.
    + destruct Hph as [-> | ->]; discriminate.
  - intros env' this' w' H. apply applySuggestion_falsy. rewrite H. reflexivity.
Qed.

Lemma failure_stores_placeholder_witness :
  let env := Demo.env_with Demo.unreachable Demo.axe_image_alt in
  let this := CellIssueWidget_new Demo.img_issue the_panel 0 in
  exists ph t,
    suggestion_arrives env Demo.img_issue this (Demo.panel_world [Some Demo.img_cell])
    = (Return (on_suggestion this (JString ph, JString [])),
       Demo.panel_world [Some Demo.img_cell], t)
    /\ (ph = error_placeholder \/ ph = invalid_placeholder)
    /\ suggestion (on_suggestion this (JString ph, JString [])) = JString ph
    /\ ph <> [].
Proof.
  intros env this.
  apply (failure_stores_placeholder env Demo.img_issue this).
  apply (NetworkFailure _ _ (HostError (js "Failed to fetch"))).
  reflexivity.
Defined.

(** C2, at a response with status 500: the suggestion the widget stores
    is not empty but the placeholder 'Error analyzing accessibility
    issues', the guard of [applySuggestion] on an empty suggestion does not
    stop the call, and Apply overwrites the source of the cell with the
    placeholder, where the claim has Apply return without modifying it. *)
Lemma apply_after_failure_overwrites :
  let env := Demo.env_with (Demo.respond 500 []) Demo.axe_image_alt in
  let w := Demo.panel_world [Some Demo.img_cell] in
  let this := CellIssueWidget_new Demo.img_issue the_panel 0 in
  BackendFailure env (formatPrompt Demo.img_issue)
  /\ exists this1 t1 r w2 t2,
       suggestion_arrives env Demo.img_issue this w = (Return this1, w, t1)
       /\ suggestion this1 = JString error_placeholder
       /\ applySuggestion env this1 w = (r, w2, t2)
       /\ notebook w = [Some Demo.img_cell]
       /\ notebook w2 = [Some (Demo.cell_of (js "markdown") error_placeholder)]
       /\ notebook w2 <> notebook w.
Proof.
  intros env w this. split.
  - apply (NonSuccessStatus _ _ {| status := 500%N; text := Return [] |});
      reflexivity.
  - do 5 eexists.
    split; [vm_compute; reflexivity|].
    split; [reflexivity|].
    split; [vm_compute; reflexivity|].
    split; [reflexivity|].
    split; [vm_compute; reflexivity|].
    vm_compute. discriminate.
Qed.

(* ===================================================================== *)
(** ** The scanner *)
(* ===================================================================== *)

Section Scanner.

Variable env : Env.

Lemma without_not_elem (d : NodeId) (l : list NodeId) : ~ elem_of d (without d l).
Proof.
  unfold without. rewrite list_elem_of_filter. intros [H _]. apply H. reflexivity.
Qed.

Lemma without_fresh (d : NodeId) (l : list NodeId) :
  Forall (fun x => x < d) l -> without d l = l.
Proof.
  unfold without. induction 1 as [|x l Hx _ IH]; [reflexivity|].
  rewrite filter_cons_True by lia. rewrite IH. reflexivity.
Qed.

(** Attaching a new node and removing it again restores the children. *)
Lemma without_attached (d : NodeId) (l : list NodeId) :
  Forall (fun x => x < d) l -> without d (without d l ++ [d]) = l.
Proof.
  intros H. rewrite (without_fresh d l H).
  unfold without. rewrite filter_app.
  fold (without d l). rewrite (without_fresh d l H).
  rewrite filter_cons_False by (intros Hne; apply Hne; reflexivity).
  rewrite filter_nil. apply app_nil_r.
Qed.

(** One turn of the loop leaves the world alone, touches no DOM node, and
    either keeps the issues or adds one for a cell rendered to markup that
    is not blank. *)
Lemma analyze_cell_spec (d : NodeId) (i : nat) (c : option Cell)
    (issues : list CellAccessibilityIssue) (w : World) :
  exists r t,
    analyze_cell env d i c issues w = (r, w, t)
    /\ Forall (fun e => is_dom_event e = false) t
    /\ forall issues', r = Return issues' ->
         issues' = issues
         \/ exists cell m output issue,
              c = Some cell /\ model cell = Some m
              /\ select_output (type m) (node cell) = Some output
              /\ nonempty (trim (reparse env output)) = true
              /\ cellIndex issue = i
              /\ issues' = issues ++ [issue].
Proof.
  unfold analyze_cell.
  destruct c as [cell|].
  2:{ do 2 eexists. split; [reflexivity|]. split; [repeat constructor|].
      intros ? [= <-]. left; reflexivity. }
  destruct (model cell) as [m|] eqn:Hm.
  2:{ do 2 eexists. split; [reflexivity|]. split; [repeat constructor|].
      intros ? [= <-]. left; reflexivity. }
  destruct (select_output (type m) (node cell)) as [output|] eqn:Ho.
  2:{ do 2 eexists. split; [reflexivity|]. split; [constructor|].
      intros ? [= <-]. left; reflexivity. }
  unfold bind, setInnerHTML, emit, ret, axe, lift, bind. simpl.
  destruct (nonempty (trim (reparse env output))) eqn:Hn.
  2:{ do 2 eexists. split; [reflexivity|]. split; [repeat constructor|].
      intros ? [= <-]. left; reflexivity. }
  destruct (axe_run env _ axeConfig) as [results|e].
  2:{ do 2 eexists. split; [reflexivity|]. split; [repeat constructor|].
      intros ? [=]. }
  destruct (0 <? length (violations results)).
  - do 2 eexists. split; [reflexivity|]. split; [repeat constructor|].
    intros ? [= <-]. right. do 4 eexists. repeat split; eauto.
  - do 2 eexists. split; [reflexivity|]. split; [repeat constructor|].
    intros ? [= <-]. left; reflexivity.
Qed.

(** The loop, by induction on the cells left to visit. *)
Lemma analyze_cells_spec (d : NodeId) (cells : list (option Cell)) :
  forall (i : nat) (issues : list CellAccessibilityIssue) (w : World),
  exists r t,
    analyze_cells env d i cells issues w = (r, w, t)
    /\ Forall (fun e => is_dom_event e = false) t
    /\ forall issues', r = Return issues' ->
         forall issue, elem_of issue issues' ->
           elem_of issue issues
           \/ exists k cell m output,
                cells !! k = Some (Some cell) /\ cellIndex issue = i + k
                /\ model cell = Some m
                /\ select_output (type m) (node cell) = Some output
                /\ nonempty (trim (reparse env output)) = true.
Proof.
  induction cells as [|c rest IH]; intros i issues w.
  - do 2 eexists. split; [reflexivity|]. split; [constructor|].
    intros ? [= <-] issue Hin. left; exact Hin.
  - simpl. unfold bind.
    destruct (analyze_cell_spec d i c issues w) as (r1 & t1 & E1 & D1 & S1).
    rewrite E1. destruct r1 as [issues1|e].
    2:{ do 2 eexists. split; [reflexivity|]. split; [exact D1|]. intros ? [=]. }
    destruct (IH (S i) issues1 w) as (r2 & t2 & E2 & D2 & S2).
    rewrite E2. do 2 eexists. split; [reflexivity|].
    split; [apply Forall_app; split; assumption|].
    intros issues' -> issue Hin.
    destruct (S2 _ eq_refl issue Hin) as [Hold|(k & cell & m & output & Hk & Hi & Hrest)].
    + destruct (S1 _ eq_refl) as [->|(cell & m & output & new & -> & Hm & Ho & Hn & Hi & ->)].
      * left; exact Hold.
      * apply elem_of_app in Hold as [Hold|Hnew]; [left; exact Hold|].
        apply list_elem_of_singleton in Hnew as ->.
        right. exists 0, cell, m, output.
        repeat split; try assumption. lia.
    + right. exists (S k), cell, m, output.
      repeat split; try tauto. lia.
Qed.

(** [analyzeCellsAccessibility] is its loop between the creation and the
    removal of the scratch container. *)
Lemma analyzeCellsAccessibility_loop (w : World) r t :
  analyze_cells env (next_node w) 0 (notebook w) [] (scanning_world w)
  = (r, scanning_world w, t) ->
  analyzeCellsAccessibility env w
  = (r,
     {| notebook := notebook w;
        body := without (next_node w) (body (scanning_world w));
        issuesContainer := without (next_node w) (issuesContainer (scanning_world w));
        next_node := S (next_node w) |},
     CreateElement (next_node w) :: AppendToBody (next_node w)
       :: t ++ [RemoveNode (next_node w)]).
Proof.
  intros H.
  unfold analyzeCellsAccessibility, bind, try_finally, createElement,
    appendToBody, get_world, removeNode.
  simpl. unfold scanning_world in H. simpl in H. rewrite H. reflexivity.
Qed.

End Scanner.

Section ScannerProperties.

Variable env : Env.

(** Every issue a scan returns is for a cell of the notebook that was
    rendered to markup that is not blank. *)
Lemma scan_issue_sound (w w' : World) (issues : list CellAccessibilityIssue)
    (t : list Event) :
  analyzeCellsAccessibility env w = (Return issues, w', t) ->
  forall issue, elem_of issue issues ->
    rendered_nonempty env (notebook w) (cellIndex issue).
Proof.
  intros H issue Hin.
  destruct (analyze_cells_spec env (next_node w) (notebook w) 0 []
              (scanning_world w)) as (r & t0 & E & _ & S).
  rewrite (analyzeCellsAccessibility_loop env w r t0 E) in H.
  injection H as -> _ _.
  destruct (S _ eq_refl issue Hin) as [Hnil|(k & cell & m & output & Hk & Hi & Hm & Ho & Hn)].
  - apply elem_of_nil in Hnil. contradiction.
  - exists cell, m, output.
    split; [|auto].
    rewrite <- Hk. f_equal. exact Hi.
Qed.

(** C6: every issue returned by a scan belongs to a cell whose rendered
    output, read back from the scratch container and trimmed, is not empty;
    a cell whose output is absent or blank is the cell of no issue. *)
Theorem scan_only_nonempty_output (w w' : World)
    (issues : list CellAccessibilityIssue) (t : list Event) :
  analyzeCellsAccessibility env w = (Return issues, w', t) ->
  (forall issue, elem_of issue issues ->
     rendered_nonempty env (notebook w) (cellIndex issue))
  /\ (forall index cell m,
        notebook w !! index = Some (Some cell) ->
        model cell = Some m ->
        match select_output (type m) (node cell) with
        | None => True
        | Some output => trim (reparse env output) = []
        end ->
        forall issue, elem_of issue issues -> cellIndex issue <> index).
Proof.
  intros H. split.
  - apply (scan_issue_sound _ _ _ _ H).
  - intros index cell m Hc Hm Hout issue Hin Heq. subst index.
    destruct (scan_issue_sound _ _ _ _ H issue Hin)
      as (cell' & m' & output & Hc' & Hm' & Ho & Hn).
    rewrite Hc in Hc'. injection Hc' as <-.
    rewrite Hm in Hm'. injection Hm' as <-.
    rewrite Ho in Hout. rewrite Hout in Hn. discriminate.
Qed.

(** C7, as amended: a cell whose type is neither 'markdown' nor 'code' is
    passed over in silence: the turn of the loop returns the issues it was
    given, throws nothing, and emits no event, so no warning is logged and
    the engine is not called. *)
Theorem unrecognized_type_passed_over (d : NodeId) (i : nat) (cell : Cell)
    (m : CellModel) (issues : list CellAccessibilityIssue) (w : World) :
  model cell = Some m ->
  type m <> js "markdown" ->
  type m <> js "code" ->
  analyze_cell env d i (Some cell) issues w = (Return issues, w, []).
Proof.
  intros Hm H1 H2. unfold analyze_cell. rewrite Hm.
  unfold select_output, str_eqb.
  rewrite !bool_decide_eq_false_2 by assumption.
  reflexivity.
Qed.

(** C9: a scan creates one scratch container, attaches it once, and removes
    it as its last action, whether the loop returns or the engine throws;
    the loop in between creates, attaches and removes nothing.  Afterwards
    the container is not in [document.body]. *)
Theorem scratch_container_released (w : World) :
  exists r w' t,
    analyzeCellsAccessibility env w
    = (r, w', CreateElement (next_node w) :: AppendToBody (next_node w)
                :: t ++ [RemoveNode (next_node w)])
    /\ Forall (fun e => is_dom_event e = false) t
    /\ ~ elem_of (next_node w) (body w')
    /\ (nodes_known w -> body w' = body w).
Proof.
  destruct (analyze_cells_spec env (next_node w) (notebook w) 0 []
              (scanning_world w)) as (r & t & E & D & _).
  exists r. eexists. exists t.
  split; [apply (analyzeCellsAccessibility_loop env w r t E)|].
  split; [exact D|]. simpl. split.
  - apply without_not_elem.
  - intros Hk. apply Forall_app in Hk as [Hb _].
    apply without_attached, Hb.
Qed.

End ScannerProperties.

Lemma scan_only_nonempty_output_witness :
  let env := Demo.env_with Demo.unreachable Demo.axe_image_alt in
  let cells := [Some Demo.text_cell; Some Demo.img_cell; Some Demo.blank_cell] in
  rendered_nonempty env cells 1.
Proof.
  intros env cells.
  pose (issue := {| cellIndex := 1; cellType := js "markdown";
                    axeResults := [Demo.image_alt];
                    contentRaw := qjs "<img src='cat.png'>" |}).
  refine (proj1 (scan_only_nonempty_output env (Demo.world_of cells)
                   {| notebook := cells; body := []; issuesContainer := [];
                      next_node := 1 |}
                   [issue] _ _) issue _).
  - vm_compute. reflexivity.
  - apply list_elem_of_here.
Defined.

Lemma unrecognized_type_passed_over_witness :
  let env := Demo.env_with Demo.unreachable Demo.axe_image_alt in
  analyze_cell env 0 2 (Some Demo.raw_cell) [] (Demo.world_of [])
  = (Return [], Demo.world_of [], []).
Proof.
  intros env.
  apply (unrecognized_type_passed_over env 0 2 Demo.raw_cell
           {| type := js "raw"; source := qjs "<img src='dog.png'>" |});
    [reflexivity | discriminate | discriminate].
Defined.

(** C7, as stated, fails on a notebook whose only cell is a raw cell: the
    scan logs no warning. *)
Lemma raw_cell_no_warning :
  let env := Demo.env_with Demo.unreachable Demo.axe_image_alt in
  let w := Demo.world_of [Some Demo.raw_cell] in
  (exists m, model Demo.raw_cell = Some m
             /\ type m <> js "markdown" /\ type m <> js "code")
  /\ exists w',
       analyzeCellsAccessibility env w
       = (Return [], w', [CreateElement 0; AppendToBody 0; RemoveNode 0])
       /\ ~ In (WarnSkippingCell 0)
              [CreateElement 0; AppendToBody 0; RemoveNode 0].
Proof.
  intros env w. split.
  - eexists. split; [reflexivity|]. split; discriminate.
  - eexists. split; [vm_compute; reflexivity|].
    simpl. intros [H|[H|[H|[]]]]; discriminate.
Qed.

(** A scan in which the engine throws still ends with the removal. *)
Example scan_engine_failure :
  let env := Demo.env_with Demo.unreachable Demo.axe_failing in
  analyzeCellsAccessibility env (Demo.world_of [Some Demo.img_cell])
  = (Throw (HostError (js "Axe is already running")),
     {| notebook := [Some Demo.img_cell]; body := []; issuesContainer := [];
        next_node := 1 |},
     [CreateElement 0; AppendToBody 0;
      SetInnerHTML 0 (qjs "<img src='cat.png'>");
      AxeRun {| innerHTML := qjs "<img src='cat.png'>"; attached := true |}
        axeConfig;
      RemoveNode 0]).
Proof. vm_compute. reflexivity. Qed.

(* ===================================================================== *)
(** ** [applySuggestion] *)
(* ===================================================================== *)

Section Apply.

Variable env : Env.
Variable this : CellIssueWidget.
Variable w : World.

(** [applySuggestion] past its guards, by the answer of the engine. *)
Lemma applySuggestion_proceeds (cell : Cell) (m : CellModel) :
  currentNotebook this <> None ->
  ToBoolean (suggestion this) = true ->
  notebook w !! widget_cellIndex this = Some (Some cell) ->
  model cell = Some m ->
  let cell' := applied_cell env (suggestion this) cell m in
  let d := next_node w in
  let start :=
    [SetSource (widget_cellIndex this) (suggestion this);
     CreateElement d;
     SetInnerHTML d (node_innerHTML (node cell'));
     AxeRun (revalidated env cell') applyOptions] in
  applySuggestion env this w
  = match axe_run env (revalidated env cell') applyOptions with
    | Return results =>
        if length (violations results) =? 0 then
          (Return (disposed this),
           applied_world this w cell' [d; widget_node this],
           start ++ [RemoveNode (widget_node this); Dispose (widget_node this);
                     RemoveNode d])
        else
          (Return this, applied_world this w cell' [d],
           start ++ [RemoveNode d])
    | Throw e =>
        (Throw e, applied_world this w cell' [d], start ++ [RemoveNode d])
    end.
Proof.
  intros Hnb Hs Hc Hm cell' d start.
  unfold applySuggestion.
  destruct (currentNotebook this) as [nb|]; [|contradiction]. simpl.
  rewrite Hs. simpl.
  unfold bind at 1. unfold get_world at 1. rewrite Hc, Hm.
  subst cell' d start. unfold revalidated, applied_cell, applied_world.
  unfold bind, setSource, createElement, setInnerHTML, try_finally, axe,
    emit, ret, lift, removeNode, dispose, bind, emit, ret. simpl.
  destruct (axe_run env _ applyOptions) as [results|e]; [|reflexivity].
  destruct (length (violations results) =? 0); reflexivity.
Qed.

End Apply.

Lemma lookup_cell_lt (cells : list (option Cell)) (i : nat) (c : option Cell) :
  cells !! i = Some c -> i < length cells.
Proof. intros H. apply lookup_lt_is_Some. eauto. Qed.

(** C4: when the stored suggestion is a non-empty text [X], the notebook is
    set and the indexed cell has a model, [applySuggestion] sets the source
    of that cell to exactly [X] (one write, to that cell, all other cells
    untouched) and calls the engine exactly once, on a container holding
    the markup of that cell's node, with the options of the scan. *)
Theorem apply_writes_and_revalidates (env : Env) (this : CellIssueWidget)
    (w : World) (X : jsstring) (cell : Cell) (m : CellModel) :
  currentNotebook this <> None ->
  suggestion this = JString X ->
  X <> [] ->
  notebook w !! widget_cellIndex this = Some (Some cell) ->
  model cell = Some m ->
  exists r w' t cell',
    applySuggestion env this w = (r, w', t)
    /\ notebook w' = <[widget_cellIndex this := Some cell']> (notebook w)
    /\ notebook w' !! widget_cellIndex this = Some (Some cell')
    /\ model cell' = Some {| type := type m; source := X |}
    /\ source_writes t = [(widget_cellIndex this, JString X)]
    /\ axe_calls t = [(revalidated env cell', axeConfig)].
Proof.
  intros Hnb Hs HX Hc Hm.
  assert (Ht : ToBoolean (suggestion this) = true).
  { rewrite Hs. destruct X; [contradiction|reflexivity]. }
  pose proof (applySuggestion_proceeds env this w cell m Hnb Ht Hc Hm) as E.
  cbv zeta in E. rewrite Hs in E.
  set (cell' := applied_cell env (JString X) cell m) in *.
  assert (Hl : <[widget_cellIndex this := Some cell']> (notebook w)
               !! widget_cellIndex this = Some (Some cell')).
  { apply list_lookup_insert_eq. eapply lookup_cell_lt, Hc. }
  destruct (axe_run env (revalidated env cell') applyOptions) as [results|e].
  - destruct (length (violations results) =? 0);
      do 3 eexists; exists cell'; (split; [exact E|]);
      repeat split; try reflexivity; exact Hl.
  - do 3 eexists; exists cell'; (split; [exact E|]);
      repeat split; try reflexivity; exact Hl.
Qed.

Lemma apply_writes_and_revalidates_witness :
  let env := Demo.env_with Demo.unreachable Demo.axe_image_alt in
  let this := Demo.widget_holding (JString (qjs "<img src='cat.png' alt='A cat'>")) in
  let w := Demo.panel_world [Some Demo.img_cell; Some Demo.text_cell] in
  exists r w' t cell',
    applySuggestion env this w = (r, w', t)
    /\ notebook w' = <[0 := Some cell']> (notebook w)
    /\ notebook w' !! 0 = Some (Some cell')
    /\ model cell' = Some {| type := js "markdown";
                             source := qjs "<img src='cat.png' alt='A cat'>" |}
    /\ source_writes t = [(0, JString (qjs "<img src='cat.png' alt='A cat'>"))]
    /\ axe_calls t = [(revalidated env cell', axeConfig)].
Proof.
  intros env this w.
  apply (apply_writes_and_revalidates env this w
           (qjs "<img src='cat.png' alt='A cat'>") Demo.img_cell
           {| type := js "markdown"; source := qjs "<img src='cat.png'>" |});
    [discriminate | reflexivity | discriminate | reflexivity | reflexivity].
Defined.

(** C5: when the engine answers the re-validation of [applySuggestion]
    with no violation, the node of the widget is removed from the issue
    list of the panel and the widget is disposed; when it answers with one
    or more violations, the issue list is as before and the widget is
    returned unchanged, its suggestion included. *)
Theorem revalidation_decides_removal (env : Env) (this : CellIssueWidget)
    (w : World) (cell : Cell) (m : CellModel) (results : AxeResults) :
  currentNotebook this <> None ->
  ToBoolean (suggestion this) = true ->
  notebook w !! widget_cellIndex this = Some (Some cell) ->
  model cell = Some m ->
  nodes_known w ->
  axe_run env (revalidated env (applied_cell env (suggestion this) cell m))
    applyOptions = Return results ->
  exists this' w' t,
    applySuggestion env this w = (Return this', w', t)
    /\ match violations results with
       | [] =>
           issuesContainer w' = without (widget_node this) (issuesContainer w)
           /\ ~ elem_of (widget_node this) (issuesContainer w')
           /\ this' = disposed this
           /\ isDisposed this' = true
           /\ In (Dispose (widget_node this)) t
       | _ :: _ =>
           issuesContainer w' = issuesContainer w
           /\ this' = this
           /\ suggestion this' = suggestion this
           /\ ~ In (Dispose (widget_node this)) t
       end.
Proof.
  intros Hnb Ht Hc Hm Hk Ha.
  pose proof (applySuggestion_proceeds env this w cell m Hnb Ht Hc Hm) as E.
  cbv zeta in E. rewrite Ha in E.
  apply Forall_app in Hk as [_ Hi].
  destruct (violations results) as [|v vs] eqn:Hv; simpl in E.
  - do 3 eexists. split; [exact E|]. simpl.
    assert (Hw : without (next_node w)
                   (without (widget_node this) (issuesContainer w))
                 = without (widget_node this) (issuesContainer w)).
    { apply without_fresh. unfold without.
      apply Forall_forall. intros x Hx.
      apply list_elem_of_filter in Hx as [_ Hx].
      revert x Hx. apply Forall_forall. exact Hi. }
    rewrite Hw. repeat split; try reflexivity.
    + apply without_not_elem.
    + simpl. tauto.
  - do 3 eexists. split; [exact E|]. simpl.
    rewrite (without_fresh _ _ Hi). repeat split; try reflexivity.
    intros [H|[H|[H|[H|[H|[]]]]]]; discriminate.
Qed.

Lemma revalidation_decides_removal_witness :
  let env := Demo.env_with Demo.unreachable Demo.axe_image_alt in
  let this := Demo.widget_holding (JString (qjs "<img src='cat.png' alt='A cat'>")) in
  let w := Demo.panel_world [Some Demo.img_cell] in
  exists this' w' t,
    applySuggestion env this w = (Return this', w', t)
    /\ issuesContainer w' = without 0 [0]
    /\ ~ elem_of 0 (issuesContainer w')
    /\ this' = disposed this
    /\ isDisposed this' = true
    /\ In (Dispose 0) t.
Proof.
  intros env this w.
  apply (revalidation_decides_removal env this w Demo.img_cell
           {| type := js "markdown"; source := qjs "<img src='cat.png'>" |}
           {| violations := [] |});
    [discriminate | reflexivity | reflexivity | reflexivity
    | repeat constructor | vm_compute; reflexivity].
Defined.

(** The other branch, on a suggestion that leaves the image without a
    text: the widget stays in the issue list. *)
Example revalidation_still_violating :
  let env := Demo.env_with Demo.unreachable Demo.axe_image_alt in
  let this := Demo.widget_holding (JString (qjs "<img src='bat.png'>")) in
  let w := Demo.panel_world [Some Demo.img_cell] in
  exists w' t,
    applySuggestion env this w = (Return this, w', t)
    /\ issuesContainer w' = [0]
    /\ notebook w' = [Some (Demo.cell_of (js "markdown") (qjs "<img src='bat.png'>"))].
Proof. do 2 eexists. split; [vm_compute; reflexivity|]. split; reflexivity. Qed.

(** C10: when the stored notebook reference is null, or the stored
    suggestion is the empty string, or the stored index is past the cells,
    or names a missing cell, or names a cell without a model,
    [applySuggestion] returns with the widget and the world as they were
    and without any event: no source is written, the engine is not called,
    nothing is thrown. *)
Theorem apply_guarded (env : Env) (this : CellIssueWidget) (w : World) :
  currentNotebook this = None
  \/ suggestion this = JString []
  \/ notebook w !! widget_cellIndex this = None
  \/ notebook w !! widget_cellIndex this = Some None
  \/ (exists cell, notebook w !! widget_cellIndex this = Some (Some cell)
                   /\ model cell = None) ->
  applySuggestion env this w = (Return this, w, [])
  /\ source_writes (snd (applySuggestion env this w)) = []
  /\ axe_calls (snd (applySuggestion env this w)) = [].
Proof.
  intros H.
  assert (E : applySuggestion env this w = (Return this, w, [])).
  { unfold applySuggestion.
    destruct (is_null (currentNotebook this)
              || negb (ToBoolean (suggestion this))) eqn:G; [reflexivity|].
    apply orb_false_elim in G as [Gn Gs].
    destruct H as [H|[H|[H|[H|(cell & H & Hm)]]]].
    - rewrite H in Gn. discriminate.
    - rewrite H in Gs. discriminate.
    - unfold bind, get_world. rewrite H. reflexivity.
    - unfold bind, get_world. rewrite H. reflexivity.
    - unfold bind, get_world. rewrite H, Hm. reflexivity. }
  rewrite E. repeat split.
Qed.

Lemma apply_guarded_witness :
  let env := Demo.env_with Demo.unreachable Demo.axe_image_alt in
  let this := Demo.widget_holding (JString (qjs "<img src='cat.png' alt='A cat'>")) in
  let w := Demo.panel_world [Some Demo.closed_cell] in
  applySuggestion env this w = (Return this, w, []).
Proof.
  intros env this w.
  apply (apply_guarded env this w).
  right; right; right; right.
  exists Demo.closed_cell. split; reflexivity.
Defined.

(* ===================================================================== *)
(** ** The model at work *)
(* ===================================================================== *)

Example JSON_parse_nested :
  JSON_parse (qjs " {'a' : [1, -2.50e1, true, null, 'xA\n'], 'a': {}} ")
  = Return (JObject [(js "a", JArray [JNumber (mkNumber false 1 0);
                                      JNumber (mkNumber true 250 (-1));
                                      JBool true; JNull;
                                      JString (js "xA" ++ [10%N])]);
                     (js "a", JObject [])]).
Proof. vm_compute. reflexivity. Qed.

Example JSON_parse_rejects :
  JSON_parse (js "[1,]") = Throw SyntaxError
  /\ JSON_parse (js "01") = Throw SyntaxError
  /\ JSON_parse (js "{a:1}") = Throw SyntaxError
  /\ JSON_parse (js "Sure! Add an alt attribute.") = Throw SyntaxError
  /\ JSON_parse (qjs "'line|break'") = Throw SyntaxError
  /\ JSON_parse (js "") = Throw SyntaxError
  /\ JSON_parse (js "[[1]") = Throw SyntaxError.
Proof. repeat split; vm_compute; reflexivity. Qed.

Example last_duplicate_wins :
  match JSON_parse (qjs "{'explanation':'first','explanation':'second'}") with
  | Return result => get_prop result (js "explanation")
  | Throw e => Throw e
  end
  = Return (Some (JString (js "second"))).
Proof. vm_compute. reflexivity. Qed.

Example ToBoolean_numbers :
  ToBoolean (JNumber (mkNumber false 0 5)) = false
  /\ ToBoolean (JNumber (mkNumber true 0 0)) = false
  /\ ToBoolean (JNumber (mkNumber false 42 0)) = true
  /\ ToBoolean (JNumber (mkNumber false 1 (-400))) = false
  /\ ToBoolean (JNumber (mkNumber false 5 (-324))) = true.
Proof. repeat split; vm_compute; reflexivity. Qed.

Example trim_fence :
  trim (remove_first (qjs "|```") (remove_first (qjs "```json|")
          (qjs "  ```json|{'a':1}|```| ")))
  = qjs "{'a':1}".
Proof. vm_compute. reflexivity. Qed.

Example formatPrompt_image :
  formatPrompt Demo.img_issue
  = qjs "The following represents a jupyter notebook cell and a accessibility issue found in it.||Content: |<img src='cat.png'>||Issue: image-alt||Description: Ensures <img> elements have alternate text||".
Proof. vm_compute. reflexivity. Qed.

(** A failed payload: prose where JSON was expected. *)
Example getFixSuggestions_prose :
  getFixSuggestions (Demo.env_with (Demo.respond 200 Demo.prose_body) Demo.axe_image_alt)
    [] (Demo.world_of [])
  = (Return (JString invalid_placeholder, JString []), Demo.world_of [],
     [ErrorFailedToParse SyntaxError]).
Proof. vm_compute. reflexivity. Qed.

(** The scenario of the specification: three cells, of which only the
    second has markup to check and one violation. *)
Example scan_three_cells :
  let env := Demo.env_with Demo.unreachable Demo.axe_image_alt in
  let cells := [Some Demo.blank_cell; Some Demo.img_cell; Some Demo.raw_cell] in
  fst (fst (analyzeCellsAccessibility env (Demo.world_of cells)))
  = Return [{| cellIndex := 1; cellType := js "markdown";
               axeResults := [Demo.image_alt];
               contentRaw := qjs "<img src='cat.png'>" |}].
Proof. vm_compute. reflexivity. Qed.

(** An analysis of the panel: one widget per issue, its node in the issue
    list, its suggestion still to come. *)
Example analyzeCurrentNotebook_two_issues :
  let env := Demo.env_with Demo.unreachable Demo.axe_image_alt in
  let cells := [Some Demo.code_cell; None; Some Demo.img_cell] in
  exists widgets w' t,
    analyzeCurrentNotebook env (Some the_panel) (Demo.world_of cells)
    = (Return widgets, w', t)
    /\ map widget_cellIndex widgets = [0; 2]
    /\ map suggestion widgets = [JString []; JString []]
    /\ issuesContainer w' = map widget_node widgets
    /\ body w' = []
    /\ warnings t = [1].
Proof.
  do 3 eexists. split; [vm_compute; reflexivity|].
  repeat split; reflexivity.
Qed.

Example analyzeCurrentNotebook_no_notebook (env : Env) (w : World) :
  analyzeCurrentNotebook env None w = (Return [], w, []).
Proof. reflexivity. Qed.

(* ===================================================================== *)
(** ** More on the scanner *)
(* ===================================================================== *)

Section ScannerTurns.

Variable env : Env.

Lemma analyze_cell_turn (d : NodeId) (i : nat) (c : option Cell)
    (issues : list CellAccessibilityIssue) :
  exists r t,
    (forall w, analyze_cell env d i c issues w = (r, w, t))
    /\ turn env d i c issues r t.
Proof.
  unfold analyze_cell.
  destruct c as [cell|].
  2:{ do 2 eexists. split; [reflexivity|]. apply turn_missing. reflexivity. }
  destruct (model cell) as [m|] eqn:Hm.
  2:{ do 2 eexists. split; [reflexivity|]. eapply turn_no_model; eauto. }
  destruct (select_output (type m) (node cell)) as [output|] eqn:Ho.
  2:{ do 2 eexists. split; [reflexivity|]. eapply turn_no_output; eauto. }
  unfold bind, setInnerHTML, emit, ret, axe, lift, bind. simpl.
  destruct (nonempty (trim (reparse env output))) eqn:Hn.
  2:{ do 2 eexists. split; [reflexivity|]. eapply turn_blank; eauto. }
  fold (scanned env output).
  destruct (axe_run env (scanned env output) axeConfig) as [results|e] eqn:Ha.
  2:{ do 2 eexists. split; [reflexivity|]. eapply turn_throw; eauto. }
  destruct (violations results) as [|v vs] eqn:Hv; simpl.
  - do 2 eexists. split; [reflexivity|]. eapply turn_clean; eauto.
  - do 2 eexists. split; [reflexivity|].
    rewrite <- Hv. eapply turn_issue; eauto. rewrite Hv. discriminate.
Qed.

(** The outcome and the trace of the loop do not depend on the world. *)
Lemma analyze_cells_turns (d : NodeId) (cells : list (option Cell)) :
  forall (i : nat) (issues : list CellAccessibilityIssue),
  exists r t,
    (forall w, analyze_cells env d i cells issues w = (r, w, t))
    /\ turns env d i cells issues r t.
Proof.
  induction cells as [|c rest IH]; intros i issues.
  - do 2 eexists. split; [reflexivity|]. constructor.
  - simpl. unfold bind.
    destruct (analyze_cell_turn d i c issues) as (r1 & t1 & E1 & T1).
    destruct r1 as [issues1|e].
    + destruct (IH (S i) issues1) as (r2 & t2 & E2 & T2).
      do 2 eexists. split.
      * intros w. rewrite E1, E2. reflexivity.
      * eapply turns_next; eassumption.
    + do 2 eexists. split.
      * intros w. rewrite E1. reflexivity.
      * apply turns_stop. exact T1.
Qed.

(** A scan is the turns of its loop between the creation and the removal
    of the scratch container. *)
Lemma scan_turns (w : World) :
  exists r t,
    analyzeCellsAccessibility env w
    = (r, scan_done_world w,
       CreateElement (next_node w) :: AppendToBody (next_node w)
         :: t ++ [RemoveNode (next_node w)])
    /\ turns env (next_node w) 0 (notebook w) [] r t.
Proof.
  destruct (analyze_cells_turns (next_node w) (notebook w) 0 [])
    as (r & t & E & T).
  exists r, t. split; [|exact T].
  apply (analyzeCellsAccessibility_loop env w r t (E _)).
Qed.

(** What a turn that returns does to the issues. *)
Lemma turn_return_inv (d : NodeId) (i : nat) (c : option Cell)
    (issues issues1 : list CellAccessibilityIssue) (t : list Event) :
  turn env d i c issues (Return issues1) t ->
  (issues1 = issues
   /\ forall cell m output results,
        c = Some cell -> model cell = Some m ->
        select_output (type m) (node cell) = Some output ->
        nonempty (trim (reparse env output)) = true ->
        axe_run env (scanned env output) axeConfig = Return results ->
        violations results = [])
  \/ (exists cell m output results,
        c = Some cell /\ model cell = Some m
        /\ select_output (type m) (node cell) = Some output
        /\ nonempty (trim (reparse env output)) = true
        /\ axe_run env (scanned env output) axeConfig = Return results
        /\ violations results <> []
        /\ issues1 = issues ++ [{| cellIndex := i; cellType := type m;
                                   axeResults := violations results;
                                   contentRaw := source m |}]).
Proof.
  intros T. inversion T; subst.
  - left. split; [reflexivity|]. intros; discriminate.
  - left. split; [reflexivity|]. intros ? ? ? ? [= <-] Hm. congruence.
  - left. split; [reflexivity|]. intros ? ? ? ? [= <-] Hm Ho. congruence.
  - left. split; [reflexivity|]. intros ? ? ? ? [= <-] Hm Ho Hn. congruence.
  - left. split; [reflexivity|]. intros ? ? ? ? [= <-] Hm Ho Hn Ha. congruence.
  - right. do 4 eexists. repeat split; eauto.
Qed.

Lemma checkable_head (c : option Cell) (rest : list (option Cell))
    (m : CellModel) (output : Html) :
  checkable env (c :: rest) 0 m output <->
  exists cell, c = Some cell /\ model cell = Some m
               /\ select_output (type m) (node cell) = Some output
               /\ nonempty (trim (reparse env output)) = true.
Proof.
  unfold checkable. simpl. split.
  - intros (cell & [= ->] & H). eauto.
  - intros (cell & -> & H). eauto.
Qed.

Lemma checkable_tail (c : option Cell) (rest : list (option Cell)) (k : nat)
    (m : CellModel) (output : Html) :
  checkable env (c :: rest) (S k) m output <-> checkable env rest k m output.
Proof. unfold checkable. simpl. reflexivity. Qed.

(** The issues of a loop that returns: the ones it was given, then one for
    every checkable cell with violations, and no other. *)
Lemma turns_issues (d : NodeId) i cells issues r t :
  turns env d i cells issues r t ->
  forall issues', r = Return issues' ->
  exists new,
    issues' = issues ++ new
    /\ (forall issue, elem_of issue new <->
          exists k m output results,
            checkable env cells k m output
            /\ axe_run env (scanned env output) axeConfig = Return results
            /\ violations results <> []
            /\ issue = {| cellIndex := i + k; cellType := type m;
                          axeResults := violations results;
                          contentRaw := source m |})
    /\ StronglySorted lt (map cellIndex new)
    /\ Forall (fun issue => i <= cellIndex issue < i + length cells) new.
Proof.
  induction 1 as [i issues|i c rest issues e t T
                  |i c rest issues issues1 t1 r t2 T Ts IH];
    intros issues' Hr.
  - injection Hr as <-. exists []. rewrite app_nil_r.
    split; [reflexivity|]. split; [|split; constructor].
    intros issue. split.
    + intros Hin. apply elem_of_nil in Hin. contradiction.
    + intros (k & m & output & results & (cell & Hc & _) & _).
      rewrite lookup_nil in Hc. discriminate.
  - discriminate.
  - destruct (IH _ Hr) as (new & -> & Hiff & Hsorted & Hrange).
    apply turn_return_inv in T
      as [[-> Hnone]|(cell & m & output & results & -> & Hm & Ho & Hn & Ha & Hv & ->)].
    + exists new. split; [reflexivity|]. split; [|split].
      * intros issue. rewrite Hiff. split.
        -- intros (k & m & output & results & Hk & Ha & Hv & ->).
           exists (S k), m, output, results.
           rewrite checkable_tail. repeat split; try assumption.
           f_equal. lia.
        -- intros (k & m & output & results & Hk & Ha & Hv & ->).
           destruct k as [|k].
           ++ apply checkable_head in Hk as (cell & -> & Hm & Ho & Hn).
              exfalso. apply Hv. eapply Hnone; eauto.
           ++ apply checkable_tail in Hk.
              exists k, m, output, results. repeat split; try assumption.
              f_equal. lia.
      * exact Hsorted.
      * eapply Forall_impl; [exact Hrange|]. simpl. intros; lia.
    + eexists (_ :: new). split; [rewrite <- app_assoc; reflexivity|].
      split; [|split].
      * intros issue. rewrite elem_of_cons, Hiff. split.
        -- intros [->|(k & m' & output' & results' & Hk & Ha' & Hv' & ->)].
           ++ exists 0, m, output, results. rewrite checkable_head.
              repeat split; eauto. f_equal. lia.
           ++ exists (S k), m', output', results'. rewrite checkable_tail.
              repeat split; try assumption. f_equal. lia.
        -- intros (k & m' & output' & results' & Hk & Ha' & Hv' & ->).
           destruct k as [|k].
           ++ left. apply checkable_head in Hk as (cell' & [= <-] & Hm' & Ho' & _).
              rewrite Hm in Hm'. injection Hm' as <-.
              rewrite Ho in Ho'. injection Ho' as <-.
              rewrite Ha in Ha'. injection Ha' as <-.
              f_equal. lia.
           ++ right. apply checkable_tail in Hk.
              exists k, m', output', results'. repeat split; try assumption.
              f_equal. lia.
      * simpl. constructor; [exact Hsorted|].
        apply Forall_map. eapply Forall_impl; [exact Hrange|].
        simpl. intros; lia.
      * constructor; [simpl; lia|].
        eapply Forall_impl; [exact Hrange|]. simpl. intros; lia.
Qed.

End ScannerTurns.

Lemma axe_calls_app (t1 t2 : list Event) :
  axe_calls (t1 ++ t2) = axe_calls t1 ++ axe_calls t2.
Proof.
  induction t1 as [|e t1 IH]; [reflexivity|].
  destruct e; simpl; rewrite IH; reflexivity.
Qed.

Lemma warnings_app (t1 t2 : list Event) :
  warnings (t1 ++ t2) = warnings t1 ++ warnings t2.
Proof.
  induction t1 as [|e t1 IH]; [reflexivity|].
  destruct e; simpl; rewrite IH; reflexivity.
Qed.

Lemma source_writes_app (t1 t2 : list Event) :
  source_writes (t1 ++ t2) = source_writes t1 ++ source_writes t2.
Proof.
  induction t1 as [|e t1 IH]; [reflexivity|].
  destruct e; simpl; rewrite IH; reflexivity.
Qed.

Section ScannerMore.

Variable env : Env.

(** A turn that returns on a checkable cell had an answer of the engine. *)
Lemma turn_return_engine (d : NodeId) i cell m output issues issues1 t :
  turn env d i (Some cell) issues (Return issues1) t ->
  model cell = Some m ->
  select_output (type m) (node cell) = Some output ->
  nonempty (trim (reparse env output)) = true ->
  exists results, axe_run env (scanned env output) axeConfig = Return results.
Proof.
  intros T Hm Ho Hn. inversion T; subst;
    match goal with
    | H : Some _ = Some _ |- _ => injection H as <-
    | H : Some _ = None |- _ => discriminate H
    end; try congruence.
  - rewrite Hm in *. match goal with H : Some _ = Some _ |- _ => injection H as <- end.
    rewrite Ho in *. match goal with H : Some _ = Some _ |- _ => injection H as <- end.
    eauto.
  - rewrite Hm in *. match goal with H : Some _ = Some _ |- _ => injection H as <- end.
    rewrite Ho in *. match goal with H : Some _ = Some _ |- _ => injection H as <- end.
    eauto.
Qed.

(** A turn that throws is the engine throwing on a checkable cell. *)
Lemma turn_throw_inv (d : NodeId) i c issues e t :
  turn env d i c issues (Throw e) t ->
  exists cell m output,
    c = Some cell /\ model cell = Some m
    /\ select_output (type m) (node cell) = Some output
    /\ nonempty (trim (reparse env output)) = true
    /\ axe_run env (scanned env output) axeConfig = Throw e.
Proof. intros T. inversion T; subst. do 3 eexists. eauto 6. Qed.

(** The loop throws [e] exactly when [e] is what the engine throws on the
    first checkable cell on which it throws. *)
Lemma turns_throw (d : NodeId) i cells issues r t :
  turns env d i cells issues r t ->
  forall e,
    r = Throw e <->
    exists k m output,
      checkable env cells k m output
      /\ axe_run env (scanned env output) axeConfig = Throw e
      /\ forall j m' output',
           j < k -> checkable env cells j m' output' ->
           exists results,
             axe_run env (scanned env output') axeConfig = Return results.
Proof.
  induction 1 as [i issues|i c rest issues e0 t T
                  |i c rest issues issues1 t1 r t2 T Ts IH]; intros e.
  - split; [discriminate|].
    intros (k & m & output & (cell & Hc & _) & _).
    rewrite lookup_nil in Hc. discriminate.
  - apply turn_throw_inv in T as (cell & m & output & -> & Hm & Ho & Hn & Ha).
    split.
    + intros [= <-]. exists 0, m, output. rewrite checkable_head.
      split; [eauto|]. split; [exact Ha|]. intros; lia.
    + intros (k & m' & output' & Hk & Ha' & Hbefore).
      destruct k as [|k].
      * apply checkable_head in Hk as (cell' & [= <-] & Hm' & Ho' & _).
        rewrite Hm in Hm'. injection Hm' as <-.
        rewrite Ho in Ho'. injection Ho' as <-.
        congruence.
      * destruct (Hbefore 0 m output) as (results & Hr); [lia| |congruence].
        apply checkable_head. eauto.
  - rewrite IH. split.
    + intros (k & m & output & Hk & Ha & Hbefore).
      exists (S k), m, output. rewrite checkable_tail.
      split; [exact Hk|]. split; [exact Ha|].
      intros j m' output' Hj Hc. destruct j as [|j].
      * apply checkable_head in Hc as (cell & -> & Hm & Ho & Hn).
        eapply turn_return_engine; eauto.
      * apply checkable_tail in Hc. apply (Hbefore j m' output'); [lia|exact Hc].
    + intros (k & m & output & Hk & Ha & Hbefore).
      destruct k as [|k].
      * apply checkable_head in Hk as (cell & -> & Hm & Ho & Hn).
        destruct (turn_return_engine _ _ _ _ _ _ _ _ T Hm Ho Hn) as (results & Hr).
        congruence.
      * apply checkable_tail in Hk. exists k, m, output.
        split; [exact Hk|]. split; [exact Ha|].
        intros j m' output' Hj Hc.
        apply (Hbefore (S j) m' output'); [lia|].
        apply checkable_tail. exact Hc.
Qed.

(** The trace of one turn. *)
Lemma turn_trace (d : NodeId) i c issues r t :
  turn env d i c issues r t ->
  Forall (fun e => is_mutation e = false /\ is_dom_event e = false) t
  /\ Forall (fun call => snd call = axeConfig
                         /\ attached (fst call) = true
                         /\ nonempty (trim (innerHTML (fst call))) = true)
       (axe_calls t)
  /\ length (axe_calls t) <= 1
  /\ (forall n, elem_of n (warnings t) ->
        n = i /\ (c = None \/ exists cell, c = Some cell /\ model cell = None))
  /\ (c = None \/ (exists cell, c = Some cell /\ model cell = None) ->
      warnings t = [i]).
Proof.
  intros T. inversion T; subst; simpl.
  all: split; [repeat constructor|].
  all: split; [repeat constructor; assumption|].
  all: split; [lia|].
  all: split;
    [intros n Hn;
     first [ apply elem_of_nil in Hn; contradiction
           | apply list_elem_of_singleton in Hn as ->;
             split; [reflexivity|eauto] ]|].
  all: try reflexivity.
  all: intros [Hc|(cell' & Hc & Hm')]; try discriminate;
    injection Hc as <-; congruence.
Qed.

(** The trace of the loop: no mutation, no DOM event; the engine is called
    with the options of the scan on an attached container whose markup
    is not blank, at most once per cell; the warnings are for unusable
    entries, and for all of them when the loop returns. *)
Lemma turns_trace (d : NodeId) i cells issues r t :
  turns env d i cells issues r t ->
  Forall (fun e => is_mutation e = false /\ is_dom_event e = false) t
  /\ Forall (fun call => snd call = axeConfig
                         /\ attached (fst call) = true
                         /\ nonempty (trim (innerHTML (fst call))) = true)
       (axe_calls t)
  /\ length (axe_calls t) <= length cells
  /\ (forall n, elem_of n (warnings t) ->
        exists k, n = i + k /\ unusable cells k)
  /\ (forall issues', r = Return issues' ->
      forall k, unusable cells k -> elem_of (i + k) (warnings t)).
Proof.
  induction 1 as [i issues|i c rest issues e0 t T
                  |i c rest issues issues1 t1 r t2 T Ts IH].
  - simpl. repeat split; try constructor.
    + intros n Hn. apply elem_of_nil in Hn. contradiction.
    + intros issues' _ k [Hk|(cell & Hk & _)];
        rewrite lookup_nil in Hk; discriminate.
  - destruct (turn_trace _ _ _ _ _ _ T) as (H1 & H2 & H3 & H4 & _).
    repeat split; try assumption.
    + simpl. lia.
    + intros n Hn. apply H4 in Hn as [-> Hc]. exists 0.
      split; [lia|]. unfold unusable. simpl.
      destruct Hc as [->|(cell & -> & Hm)]; eauto.
    + intros issues' Hr. discriminate.
  - destruct (turn_trace _ _ _ _ _ _ T) as (H1 & H2 & H3 & H4 & H5).
    destruct IH as (I1 & I2 & I3 & I4 & I5).
    rewrite axe_calls_app, warnings_app.
    split; [apply Forall_app; split; assumption|].
    split; [apply Forall_app; split; assumption|].
    split; [rewrite length_app; simpl; lia|].
    split.
    + intros n Hn. apply elem_of_app in Hn as [Hn|Hn].
      * apply H4 in Hn as [-> Hc]. exists 0.
        split; [lia|]. unfold unusable. simpl.
        destruct Hc as [->|(cell & -> & Hm)]; eauto.
      * apply I4 in Hn as (k & -> & Hk). exists (S k). split; [lia|exact Hk].
    + intros issues' Hr k Hk. apply elem_of_app.
      destruct k as [|k].
      * left. rewrite H5; [replace (i + 0) with i by lia; apply list_elem_of_here|].
        unfold unusable in Hk. simpl in Hk.
        destruct Hk as [[= ->]|(cell & [= ->] & Hm)]; eauto.
      * right. replace (i + S k) with (S i + k) by lia.
        apply (I5 _ Hr). exact Hk.
Qed.

(** X1: when a scan returns, its issues are exactly these: one for every
    cell that has a model, an output container for its type with markup
    that is not blank, and at least one violation reported by the engine;
    the issue holds the index of the cell, its type, the violations as the
    engine listed them and the source of the cell. *)
Theorem scan_issues_exactly (w w' : World)
    (issues : list CellAccessibilityIssue) (t : list Event) :
  analyzeCellsAccessibility env w = (Return issues, w', t) ->
  forall issue,
    elem_of issue issues <->
    exists index m output results,
      checkable env (notebook w) index m output
      /\ axe_run env (scanned env output) axeConfig = Return results
      /\ violations results <> []
      /\ issue = {| cellIndex := index; cellType := type m;
                    axeResults := violations results;
                    contentRaw := source m |}.
Proof.
  intros H issue.
  destruct (scan_turns env w) as (r & t0 & E & T).
  rewrite E in H. injection H as -> _ _.
  destruct (turns_issues env _ _ _ _ _ _ T _ eq_refl) as (new & Hnew & Hiff & _).
  simpl in Hnew. subst new. exact (Hiff issue).
Qed.

(** X2: the issues of a scan come in the order of the cells, with indices
    that strictly increase and lie within the notebook: no cell has two
    issues. *)
Theorem scan_issues_ordered (w w' : World)
    (issues : list CellAccessibilityIssue) (t : list Event) :
  analyzeCellsAccessibility env w = (Return issues, w', t) ->
  StronglySorted lt (map cellIndex issues)
  /\ Forall (fun issue => cellIndex issue < length (notebook w)) issues
  /\ NoDup (map cellIndex issues).
Proof.
  intros H.
  destruct (scan_turns env w) as (r & t0 & E & T).
  rewrite E in H. injection H as -> _ _.
  destruct (turns_issues env _ _ _ _ _ _ T _ eq_refl)
    as (new & Hnew & _ & Hsorted & Hrange).
  simpl in Hnew. subst new.
  split; [exact Hsorted|]. split.
  - eapply Forall_impl; [exact Hrange|]. simpl. intros; lia.
  - clear -Hsorted. induction Hsorted as [|x l _ IH Hx]; constructor.
    + intros Hin. apply (proj1 (Forall_forall _ _) Hx) in Hin. lia.
    + exact IH.
Qed.

(** X3: a scan throws exactly when the engine throws on a checkable cell,
    and what it throws is what the engine threw on the first such cell;
    the cells after it are not looked at, and no issue is returned. *)
Theorem scan_throws_first_failure (w : World) (e : exn) :
  fst (fst (analyzeCellsAccessibility env w)) = Throw e <->
  exists index m output,
    checkable env (notebook w) index m output
    /\ axe_run env (scanned env output) axeConfig = Throw e
    /\ forall j m' output',
         j < index -> checkable env (notebook w) j m' output' ->
         exists results,
           axe_run env (scanned env output') axeConfig = Return results.
Proof.
  destruct (scan_turns env w) as (r & t0 & E & T).
  rewrite E. simpl. apply (turns_throw _ _ _ _ _ _ T).
Qed.

(** The engine calls of one turn: none when the entry is not checkable,
    one, on the markup of the entry, when it is. *)
Lemma turn_calls (d : NodeId) i c issues r t :
  turn env d i c issues r t ->
  (axe_calls t = []
   /\ forall rest m output, ~ checkable env (c :: rest) 0 m output)
  \/ (exists m output,
        (forall rest, checkable env (c :: rest) 0 m output)
        /\ axe_calls t = [(scanned env output, axeConfig)]).
Proof.
  intros T. inversion T; subst; simpl.
  - left. split; [reflexivity|]. intros rest m output H.
    apply checkable_head in H as (cell & Hc & _). discriminate.
  - left. split; [reflexivity|]. intros rest m output H.
    apply checkable_head in H as (cell' & [= <-] & Hm & _). congruence.
  - left. split; [reflexivity|]. intros rest m' output H.
    apply checkable_head in H as (cell' & [= <-] & Hm & Ho & _). congruence.
  - left. split; [reflexivity|]. intros rest m' output' H.
    apply checkable_head in H as (cell' & [= <-] & Hm & Ho & Hn). congruence.
  - right. exists m, output. split; [|reflexivity].
    intros rest. apply checkable_head. eauto.
  - right. exists m, output. split; [|reflexivity].
    intros rest. apply checkable_head. eauto.
  - right. exists m, output. split; [|reflexivity].
    intros rest. apply checkable_head. eauto.
Qed.

Lemma StronglySorted_lt_shift (ks : list nat) :
  StronglySorted lt ks -> StronglySorted lt (0 :: map S ks).
Proof.
  intros H. constructor.
  - induction H as [|k ks _ IH Hk]; simpl; constructor; [exact IH|].
    apply Forall_map. eapply Forall_impl; [exact Hk|]. simpl. intros; lia.
  - apply Forall_map. apply Forall_forall. intros; simpl; lia.
Qed.

Lemma StronglySorted_lt_tail (k : nat) (ks : list nat) :
  StronglySorted lt (k :: ks) -> StronglySorted lt ks.
Proof. intros H. inversion H. assumption. Qed.

(** The engine calls of the loop, cell by cell: the calls are, in order,
    one for each index of a strictly increasing list of checkable cells,
    on the markup of that cell; when the loop returns, every checkable
    cell is in the list. *)
Lemma turns_calls (d : NodeId) i cells issues r t :
  turns env d i cells issues r t ->
  exists ks : list nat,
    StronglySorted lt ks
    /\ Forall2 (fun k call =>
                  exists m output,
                    checkable env cells k m output
                    /\ call = (scanned env output, axeConfig))
         ks (axe_calls t)
    /\ (forall issues', r = Return issues' ->
        forall k m output, checkable env cells k m output -> elem_of k ks).
Proof.
  induction 1 as [i issues|i c rest issues e0 t T
                  |i c rest issues issues1 t1 r t2 T Ts IH].
  - exists []. split; [constructor|]. split; [constructor|].
    intros issues' _ k m output (cell & Hc & _).
    rewrite lookup_nil in Hc. discriminate.
  - pose proof (turn_throw_inv _ _ _ _ _ _ T)
      as (cell & m & output & -> & Hm & Ho & Hn & Ha).
    destruct (turn_calls _ _ _ _ _ _ T) as [[_ Hno]|(m' & output' & Hc & ->)].
    + exfalso. apply (Hno rest m output). apply checkable_head. eauto.
    + exists [0]. split; [repeat constructor|]. split.
      * repeat constructor. exists m', output'. split; [apply Hc|reflexivity].
      * intros issues' Hr. discriminate.
  - destruct IH as (ks & Hs & Hc & Hall).
    rewrite axe_calls_app.
    destruct (turn_calls _ _ _ _ _ _ T) as [[-> Hno]|(m & output & Hh & ->)].
    + exists (map S ks). split; [|split].
      * apply StronglySorted_lt_shift in Hs.
        apply (StronglySorted_lt_tail _ _ Hs).
      * simpl. apply Forall2_fmap_l.
        eapply Forall2_impl; [exact Hc|].
        intros k call (m & output & Hk & ->). exists m, output.
        split; [apply checkable_tail; exact Hk|reflexivity].
      * intros issues' Hr k m output Hk. destruct k as [|k].
        -- exfalso. apply (Hno rest m output Hk).
        -- apply checkable_tail in Hk.
           apply list_elem_of_fmap. exists k.
           split; [reflexivity|]. apply (Hall _ Hr k m output Hk).
    + exists (0 :: map S ks). split; [|split].
      * apply StronglySorted_lt_shift. exact Hs.
      * simpl. constructor.
        -- exists m, output. split; [apply Hh|reflexivity].
        -- apply Forall2_fmap_l.
           eapply Forall2_impl; [exact Hc|].
           intros k call (m' & output' & Hk & ->). exists m', output'.
           split; [apply checkable_tail; exact Hk|reflexivity].
      * intros issues' Hr k m' output' Hk. destruct k as [|k].
        -- apply list_elem_of_here.
        -- apply list_elem_of_further. apply checkable_tail in Hk.
           apply list_elem_of_fmap. exists k.
           split; [reflexivity|]. apply (Hall _ Hr k m' output' Hk).
Qed.

(** X4: the engine calls of a scan, cell by cell.  Whatever the outcome,
    the calls of the scan are those of its loop, and they are, in order,
    one call for each index of a strictly increasing list of cells: no
    cell is checked twice.  Each call is for a cell with a model and an
    output container whose markup is not blank, on a container holding
    that markup, with the options [axeConfig]; when the scan returns, every
    such cell has its call.  The loop runs in a world in which the scratch
    container is a child of [document.body], leaves that world as it is
    and neither attaches nor removes a node, so the container is attached
    at every call. *)
Theorem scan_engine_calls (w : World) :
  exists r t ks,
    analyzeCellsAccessibility env w
    = (r, scan_done_world w,
       CreateElement (next_node w) :: AppendToBody (next_node w)
         :: t ++ [RemoveNode (next_node w)])
    /\ (analyze_cells env (next_node w) 0 (notebook w) [] (scanning_world w)
        = (r, scanning_world w, t))
    /\ elem_of (next_node w) (body (scanning_world w))
    /\ Forall (fun e => is_dom_event e = false) t
    /\ axe_calls (snd (analyzeCellsAccessibility env w)) = axe_calls t
    /\ StronglySorted lt ks
    /\ Forall2 (fun k call =>
                  exists m output,
                    checkable env (notebook w) k m output
                    /\ call = (scanned env output, axeConfig))
         ks (axe_calls t)
    /\ (forall issues, r = Return issues ->
        forall k m output,
          checkable env (notebook w) k m output -> elem_of k ks).
Proof.
  destruct (analyze_cells_turns env (next_node w) (notebook w) 0 [])
    as (r & t & E & T).
  destruct (turns_calls _ _ _ _ _ _ T) as (ks & Hs & Hc & Hall).
  destruct (turns_trace _ _ _ _ _ _ T) as (Hd & _).
  pose proof (analyzeCellsAccessibility_loop env w r t (E _)) as Escan.
  exists r, t, ks.
  split; [exact Escan|]. split; [apply E|]. split.
  { simpl. apply elem_of_app. right. apply list_elem_of_here. }
  split.
  { eapply Forall_impl; [exact Hd|]. simpl. tauto. }
  split.
  { rewrite Escan. simpl. rewrite axe_calls_app. simpl. apply app_nil_r. }
  split; [exact Hs|]. split; [exact Hc|exact Hall].
Qed.

(** X5: when a scan returns, it has logged a warning for an index exactly
    when the entry at that index is a missing cell or a cell without a
    model. *)
Theorem scan_warnings_exactly (w w' : World)
    (issues : list CellAccessibilityIssue) (t : list Event) :
  analyzeCellsAccessibility env w = (Return issues, w', t) ->
  forall index, elem_of index (warnings t) <-> unusable (notebook w) index.
Proof.
  intros H index.
  destruct (scan_turns env w) as (r & t0 & E & T).
  rewrite E in H. injection H as -> _ <-.
  destruct (turns_trace _ _ _ _ _ _ T) as (_ & _ & _ & H4 & H5).
  simpl. rewrite warnings_app. simpl. rewrite app_nil_r. split.
  - intros Hin. apply H4 in Hin as (k & -> & Hk). exact Hk.
  - intros Hk. apply (H5 _ eq_refl index Hk).
Qed.

(** X6: a scan only reads the notebook: whatever its outcome, the cells
    are as before, no source is written and nothing is disposed; in a
    world whose nodes are known, the issue list and [document.body] are as
    before too, and the nodes of the world it leaves are known. *)
Theorem scan_reads_only (w : World) :
  let '(_, w', t) := analyzeCellsAccessibility env w in
  notebook w' = notebook w
  /\ next_node w' = S (next_node w)
  /\ Forall (fun e => is_mutation e = false) t
  /\ source_writes t = []
  /\ (nodes_known w ->
      issuesContainer w' = issuesContainer w /\ body w' = body w
      /\ nodes_known w').
Proof.
  destruct (scan_turns env w) as (r & t0 & E & T).
  rewrite E.
  destruct (turns_trace _ _ _ _ _ _ T) as (H1 & _).
  split; [reflexivity|]. split; [reflexivity|].
  assert (Hm : Forall (fun e => is_mutation e = false) t0).
  { eapply Forall_impl; [exact H1|]. simpl. tauto. }
  split; [|split].
  - repeat constructor. apply Forall_app. split; [exact Hm|repeat constructor].
  - simpl. rewrite source_writes_app. simpl. rewrite app_nil_r.
    clear -Hm. induction Hm as [|e t He _ IH]; [reflexivity|].
    destruct e; try discriminate; exact IH.
  - intros Hk. pose proof Hk as Hk'. apply Forall_app in Hk' as [Hb Hi].
    unfold nodes_known. simpl. rewrite (without_attached _ _ Hb).
    rewrite !(without_fresh _ _ Hi).
    split; [reflexivity|]. split; [reflexivity|].
    eapply Forall_impl; [exact Hk|]. simpl. intros; lia.
Qed.

End ScannerMore.

Lemma scan_issues_exactly_witness :
  let env := Demo.env_with Demo.unreachable Demo.axe_image_alt in
  let cells := [Some Demo.text_cell; Some Demo.img_cell; Some Demo.blank_cell] in
  let issue := {| cellIndex := 1; cellType := js "markdown";
                  axeResults := [Demo.image_alt];
                  contentRaw := qjs "<img src='cat.png'>" |} in
  elem_of issue [issue] <->
  exists index m output results,
    checkable env cells index m output
    /\ axe_run env (scanned env output) axeConfig = Return results
    /\ violations results <> []
    /\ issue = {| cellIndex := index; cellType := type m;
                  axeResults := violations results;
                  contentRaw := source m |}.
Proof.
  intros env cells issue.
  apply (scan_issues_exactly env (Demo.world_of cells)
           {| notebook := cells; body := []; issuesContainer := [];
              next_node := 1 |}
           [issue]
           [CreateElement 0; AppendToBody 0;
            SetInnerHTML 0 (js "<p>Hello</p>");
            AxeRun (scanned env (js "<p>Hello</p>")) axeConfig;
            SetInnerHTML 0 (qjs "<img src='cat.png'>");
            AxeRun (scanned env (qjs "<img src='cat.png'>")) axeConfig;
            SetInnerHTML 0 (js "   ");
            RemoveNode 0]).
  vm_compute. reflexivity.
Defined.

Lemma scan_issues_ordered_witness :
  let env := Demo.env_with Demo.unreachable Demo.axe_image_alt in
  let cells := [Some Demo.code_cell; None; Some Demo.img_cell] in
  StronglySorted lt [0; 2]
  /\ Forall (fun issue => cellIndex issue < 3)
       [{| cellIndex := 0; cellType := js "code";
           axeResults := [Demo.image_alt]; contentRaw := js "print(1)" |};
        {| cellIndex := 2; cellType := js "markdown";
           axeResults := [Demo.image_alt];
           contentRaw := qjs "<img src='cat.png'>" |}]
  /\ NoDup [0; 2].
Proof.
  intros env cells.
  apply (scan_issues_ordered env (Demo.world_of cells)
           {| notebook := cells; body := []; issuesContainer := [];
              next_node := 1 |}
           [{| cellIndex := 0; cellType := js "code";
               axeResults := [Demo.image_alt]; contentRaw := js "print(1)" |};
            {| cellIndex := 2; cellType := js "markdown";
               axeResults := [Demo.image_alt];
               contentRaw := qjs "<img src='cat.png'>" |}]
           [CreateElement 0; AppendToBody 0;
            SetInnerHTML 0 (qjs "<img src='plot.png'>");
            AxeRun (scanned env (qjs "<img src='plot.png'>")) axeConfig;
            WarnSkippingCell 1;
            SetInnerHTML 0 (qjs "<img src='cat.png'>");
            AxeRun (scanned env (qjs "<img src='cat.png'>")) axeConfig;
            RemoveNode 0]).
  vm_compute. reflexivity.
Defined.

Lemma scan_warnings_exactly_witness :
  let cells := [Some Demo.closed_cell; Some Demo.raw_cell; None] in
  elem_of 2 [0; 2] <-> unusable cells 2.
Proof.
  intros cells.
  apply (scan_warnings_exactly
           (Demo.env_with Demo.unreachable Demo.axe_image_alt)
           (Demo.world_of cells)
           {| notebook := cells; body := []; issuesContainer := [];
              next_node := 1 |}
           []
           [CreateElement 0; AppendToBody 0; WarnSkippingCell 0;
            WarnSkippingCell 2; RemoveNode 0]).
  vm_compute. reflexivity.
Defined.

(* ===================================================================== *)
(** ** More on the backend adapter *)
(* ===================================================================== *)

Section BackendMore.

Variable env : Env.
Variable prompt : jsstring.
Variable w : World.


Lemma getFixSuggestions_body_thrown (response : Response)
    (responseText : jsstring) (e : exn) :
  fetch env (make_request prompt) = Return response ->
  ok response = true ->
  text response = Return responseText ->
  JSON_parse responseText = Throw e ->
  getFixSuggestions env prompt w
  = (Return (JString error_placeholder, JString []), w,
     [ErrorGettingSuggestions e]).
Proof.
  intros Hf Hok Ht Hp.
  unfold getFixSuggestions, try_catch, bind, lift, throw, ret.
  rewrite Hf, Hok. simpl. rewrite Ht, Hp. reflexivity.
Qed.


(** X8: a successful response whose body is no JSON text is answered like
    a failed request, with 'Error analyzing accessibility issues' and the
    error of the parser on the console, not with 'Invalid response
    format'. *)
Theorem getFixSuggestions_body_not_json (response : Response)
    (responseText : jsstring) (e : exn) :
  fetch env (make_request prompt) = Return response ->
  ok response = true ->
  text response = Return responseText ->
  JSON_parse responseText = Throw e ->
  getFixSuggestions env prompt w
  = (Return (JString error_placeholder, JString []), w,
     [ErrorGettingSuggestions e])
  /\ error_placeholder <> invalid_placeholder.
Proof.
  intros Hf Hok Ht Hp.
  split; [apply (getFixSuggestions_body_thrown _ _ _ Hf Hok Ht Hp)|discriminate].
Qed.

(** X9: a successful response whose body is JSON but has no string in a
    [response] field (the field is absent or holds another kind of value,
    or the body is not an object at all) is answered with 'Invalid response
    format' and a [TypeError] on the console. *)
Theorem getFixSuggestions_response_not_string (response : Response)
    (responseText : jsstring) (responseObj : value) :
  fetch env (make_request prompt) = Return response ->
  ok response = true ->
  text response = Return responseText ->
  JSON_parse responseText = Return responseObj ->
  (forall s, get_prop responseObj (js "response") <> Return (Some (JString s))) ->
  getFixSuggestions env prompt w
  = (Return (JString invalid_placeholder, JString []), w,
     [ErrorFailedToParse TypeError]).
Proof.
  intros Hf Hok Ht Hp Hns.
  rewrite (getFixSuggestions_ok _ _ _ _ _ _ Hf Hok Ht Hp).
  unfold rawJSONString_of.
  destruct responseObj as [|b|n|s|l|ms]; simpl in *; try reflexivity.
  destruct (obj_get (js "response") ms) as [v|] eqn:Hg; [|reflexivity].
  destruct v; try reflexivity.
  exfalso. apply (Hns s). reflexivity.
Qed.

(** A payload that is the JSON text [null] is answered with 'Invalid
    response format': reading a field of [null] throws. *)
Lemma getFixSuggestions_null_payload (response : Response)
    (responseText : jsstring) (responseObj : value) (rawJSONString : jsstring) :
  fetch env (make_request prompt) = Return response ->
  ok response = true ->
  text response = Return responseText ->
  JSON_parse responseText = Return responseObj ->
  rawJSONString_of responseObj = Return rawJSONString ->
  JSON_parse rawJSONString = Return JNull ->
  getFixSuggestions env prompt w
  = (Return (JString invalid_placeholder, JString []), w,
     [ErrorFailedToParse TypeError]).
Proof.
  intros Hf Hok Ht Hp Hr Hn.
  rewrite (getFixSuggestions_ok _ _ _ _ _ _ Hf Hok Ht Hp), Hr, Hn.
  reflexivity.
Qed.

(** The two fields of an object whose values under the two names are
    strings or absent. *)
Lemma suggestion_of_two_strings (ms : list (jsstring * value)) :
  (forall v, obj_get (js "exampleCellContent") ms = Some v -> is_string v = true) ->
  (forall v, obj_get (js "explanation") ms = Some v -> is_string v = true) ->
  exists a b,
    suggestion_of (JObject ms) = Return (JString a, JString b)
    /\ (obj_get (js "exampleCellContent") ms = None -> a = [])
    /\ (forall s, obj_get (js "exampleCellContent") ms = Some (JString s) -> a = s)
    /\ (obj_get (js "explanation") ms = None -> b = [])
    /\ (forall s, obj_get (js "explanation") ms = Some (JString s) -> b = s).
Proof.
  intros H1 H2. unfold suggestion_of, get_prop.
  assert (Hs : forall k,
             (forall v, obj_get k ms = Some v -> is_string v = true) ->
             exists s, or_empty (obj_get k ms) = JString s
                       /\ (obj_get k ms = None -> s = [])
                       /\ (forall s', obj_get k ms = Some (JString s') -> s = s')).
  { intros k H. destruct (obj_get k ms) as [v|] eqn:E; simpl.
    - specialize (H v eq_refl). destruct v; try discriminate.
      destruct s as [|c s]; simpl.
      + exists []. split; [reflexivity|]. split; [discriminate|].
        intros s' [= <-]. reflexivity.
      + exists (c :: s). split; [reflexivity|]. split; [discriminate|].
        intros s' [= <-]. reflexivity.
    - exists []. split; [reflexivity|]. split; [reflexivity|]. discriminate. }
  destruct (Hs _ H1) as (a & -> & Ha1 & Ha2).
  destruct (Hs _ H2) as (b & -> & Hb1 & Hb2).
  exists a, b. repeat split; assumption.
Qed.

(** X10: when the payload is an object whose [exampleCellContent] and
    [explanation] are strings or absent, both returned fields are strings:
    the string of the payload, the empty string for an absent field; and
    nothing is written to the console. *)
Theorem getFixSuggestions_string_fields (response : Response)
    (responseText : jsstring) (responseObj : value) (rawJSONString : jsstring)
    (ms : list (jsstring * value)) :
  fetch env (make_request prompt) = Return response ->
  ok response = true ->
  text response = Return responseText ->
  JSON_parse responseText = Return responseObj ->
  rawJSONString_of responseObj = Return rawJSONString ->
  JSON_parse rawJSONString = Return (JObject ms) ->
  (forall v, obj_get (js "exampleCellContent") ms = Some v -> is_string v = true) ->
  (forall v, obj_get (js "explanation") ms = Some v -> is_string v = true) ->
  exists a b,
    getFixSuggestions env prompt w = (Return (JString a, JString b), w, [])
    /\ (obj_get (js "exampleCellContent") ms = None -> a = [])
    /\ (forall s, obj_get (js "exampleCellContent") ms = Some (JString s) -> a = s)
    /\ (obj_get (js "explanation") ms = None -> b = [])
    /\ (forall s, obj_get (js "explanation") ms = Some (JString s) -> b = s).
Proof.
  intros Hf Hok Ht Hp Hr Hi H1 H2.
  destruct (suggestion_of_two_strings ms H1 H2) as (a & b & Hs & Hrest).
  exists a, b. split; [|exact Hrest].
  rewrite (getFixSuggestions_ok _ _ _ _ _ _ Hf Hok Ht Hp), Hr, Hi, Hs.
  reflexivity.
Qed.

End BackendMore.

Lemma getFixSuggestions_body_not_json_witness :
  getFixSuggestions (Demo.env_with (Demo.respond 200 (js "Bad Gateway")) Demo.axe_image_alt)
    [] (Demo.world_of [])
  = (Return (JString error_placeholder, JString []), Demo.world_of [],
     [ErrorGettingSuggestions SyntaxError]).
Proof.
  apply (getFixSuggestions_body_not_json _ _ _
           {| status := 200%N; text := Return (js "Bad Gateway") |}
           (js "Bad Gateway") SyntaxError);
    vm_compute; reflexivity.
Defined.

Lemma getFixSuggestions_response_not_string_witness :
  getFixSuggestions
    (Demo.env_with (Demo.respond 200 (qjs "{'error':'model not found'}"))
       Demo.axe_image_alt)
    [] (Demo.world_of [])
  = (Return (JString invalid_placeholder, JString []), Demo.world_of [],
     [ErrorFailedToParse TypeError]).
Proof.
  apply (getFixSuggestions_response_not_string _ _ _
           {| status := 200%N; text := Return (qjs "{'error':'model not found'}") |}
           (qjs "{'error':'model not found'}")
           (JObject [(js "error", JString (js "model not found"))]));
    try (vm_compute; reflexivity).
  intros s. vm_compute. discriminate.
Defined.

Lemma getFixSuggestions_string_fields_witness :
  exists a b,
    getFixSuggestions
      (Demo.env_with (Demo.respond 200 Demo2.explanation_only_body) Demo.axe_image_alt)
      [] (Demo.world_of [])
    = (Return (JString a, JString b), Demo.world_of [], [])
    /\ a = [] /\ b = js "Nothing to change".
Proof.
  destruct (getFixSuggestions_string_fields
              (Demo.env_with (Demo.respond 200 Demo2.explanation_only_body)
                 Demo.axe_image_alt)
              [] (Demo.world_of [])
              {| status := 200%N; text := Return Demo2.explanation_only_body |}
              Demo2.explanation_only_body
              (JObject [(js "response",
                         JString (qjs "{'explanation':'Nothing to change'}"))])
              (qjs "{'explanation':'Nothing to change'}")
              [(js "explanation", JString (js "Nothing to change"))])
    as (a & b & Hg & Ha & _ & _ & Hb).
  - reflexivity.
  - reflexivity.
  - reflexivity.
  - vm_compute. reflexivity.
  - vm_compute. reflexivity.
  - vm_compute. reflexivity.
  - intros v. vm_compute. discriminate.
  - intros v. vm_compute. intros [= <-]. reflexivity.
  - exists a, b. split; [exact Hg|]. split.
    + apply Ha. vm_compute. reflexivity.
    + apply Hb. vm_compute. reflexivity.
Defined.

(* ===================================================================== *)
(** ** The fence markers *)
(* ===================================================================== *)

Lemma strip_prefix_app (p s : jsstring) : strip_prefix p (p ++ s) = Some s.
Proof.
  induction p as [|a p IH]; [reflexivity|].
  simpl. rewrite N.eqb_refl. exact IH.
Qed.

Lemma strip_prefix_Some (p s r : jsstring) :
  strip_prefix p s = Some r -> s = p ++ r.
Proof.
  revert s; induction p as [|a p IH]; intros s H; simpl in H.
  - injection H as ->. reflexivity.
  - destruct s as [|b s]; [discriminate|].
    destruct (N.eqb_spec a b) as [->|]; [|discriminate].
    apply IH in H. rewrite H. reflexivity.
Qed.

Lemma remove_first_unfold (pat s : jsstring) :
  remove_first pat s
  = match strip_prefix pat s with
    | Some r => r
    | None => match s with
              | [] => []
              | c :: r => c :: remove_first pat r
              end
    end.
Proof. destruct s; reflexivity. Qed.

(** A pattern at the start of a text is the one that is removed. *)
Lemma remove_first_prefix (pat s : jsstring) : remove_first pat (pat ++ s) = s.
Proof. rewrite remove_first_unfold, strip_prefix_app. reflexivity. Qed.

Lemma includes_unfold (pat s : jsstring) :
  includes pat s
  = match strip_prefix pat s with
    | Some _ => true
    | None => match s with
              | [] => false
              | _ :: r => includes pat r
              end
    end.
Proof. destruct s; reflexivity. Qed.

(** A pattern that does not occur is not removed. *)
Lemma remove_first_absent (pat s : jsstring) :
  includes pat s = false -> remove_first pat s = s.
Proof.
  induction s as [|c s IH]; intros H;
    rewrite includes_unfold in H; rewrite remove_first_unfold.
  - destruct (strip_prefix pat []); [discriminate|reflexivity].
  - destruct (strip_prefix pat (c :: s)); [discriminate|].
    f_equal. apply IH. exact H.
Qed.

(** The closing marker does not start inside a text and end in the marker
    that follows the text. *)
Lemma closing_not_early (c : N) (s : jsstring) :
  strip_prefix (qjs "|```") (c :: s) = None ->
  strip_prefix (qjs "|```") (c :: s ++ qjs "|```") = None.
Proof.
  change (qjs "|```") with [10%N; 96%N; 96%N; 96%N].
  cbn [strip_prefix].
  destruct (10 =? c)%N; [|reflexivity].
  destruct s as [|x s]; [reflexivity|]. cbn [strip_prefix app].
  destruct (96 =? x)%N; [|reflexivity].
  destruct s as [|y s]; [reflexivity|]. cbn [strip_prefix app].
  destruct (96 =? y)%N; [|reflexivity].
  destruct s as [|z s]; [reflexivity|]. cbn [strip_prefix app].
  destruct (96 =? z)%N; [|reflexivity].
  destruct s; intros H; discriminate H.
Qed.

(** The closing marker after a text in which it does not occur is the one
    that is removed. *)
Lemma remove_first_closing (s : jsstring) :
  includes (qjs "|```") s = false ->
  remove_first (qjs "|```") (s ++ qjs "|```") = s.
Proof.
  induction s as [|c s IH]; intros H.
  - reflexivity.
  - change ((c :: s) ++ qjs "|```") with (c :: (s ++ qjs "|```")).
    rewrite remove_first_unfold. rewrite includes_unfold in H.
    destruct (strip_prefix (qjs "|```") (c :: s)) eqn:E; [discriminate|].
    rewrite (closing_not_early _ _ E).
    f_equal. apply IH. exact H.
Qed.

(** X11: the fence is optional.  For a payload in which the closing marker
    (line feed, three backticks) does not occur, the text handed to the
    inner [JSON.parse] is the trimmed payload when the [response] field
    holds the payload between the opening marker (three backticks, json,
    line feed) and the closing marker; and it is the trimmed payload too
    when the field holds the payload as it is and the opening marker does
    not occur in it either. *)
Theorem fence_is_optional (payload : jsstring) (others : list (jsstring * value)) :
  includes (qjs "|```") payload = false ->
  obj_get (js "response") others = None ->
  rawJSONString_of
    (JObject ((js "response",
               JString (qjs "```json|" ++ payload ++ qjs "|```")) :: others))
  = Return (trim payload)
  /\ (includes (qjs "```json|") payload = false ->
      rawJSONString_of (JObject ((js "response", JString payload) :: others))
      = Return (trim payload)).
Proof.
  intros Hp Ho. unfold rawJSONString_of, get_prop. cbn [obj_get].
  rewrite Ho. unfold str_eqb. rewrite bool_decide_eq_true_2 by reflexivity.
  split.
  - f_equal. f_equal.
    rewrite remove_first_prefix. apply remove_first_closing. exact Hp.
  - intros Hq. f_equal. f_equal.
    rewrite (remove_first_absent _ _ Hq).
    apply remove_first_absent. exact Hp.
Qed.

Lemma fence_is_optional_witness :
  let payload := qjs "{|  'exampleCellContent': 'alt text here'|}" in
  rawJSONString_of
    (JObject [(js "response", JString (qjs "```json|" ++ payload ++ qjs "|```"))])
  = Return payload
  /\ rawJSONString_of (JObject [(js "response", JString payload)])
     = Return payload.
Proof.
  intros payload.
  destruct (fence_is_optional payload []) as [H1 H2];
    [vm_compute; reflexivity | reflexivity |].
  split; [exact H1|]. apply H2. vm_compute. reflexivity.
Defined.

(* ===================================================================== *)
(** ** More on [applySuggestion] *)
(* ===================================================================== *)

(** [applySuggestion] stops at a guard, or goes past both. *)
Lemma applySuggestion_cases (env : Env) (this : CellIssueWidget) (w : World) :
  applySuggestion env this w = (Return this, w, [])
  \/ exists cell m,
       currentNotebook this <> None
       /\ ToBoolean (suggestion this) = true
       /\ notebook w !! widget_cellIndex this = Some (Some cell)
       /\ model cell = Some m.
Proof.
  unfold applySuggestion.
  destruct (currentNotebook this) as [nb|] eqn:Hn; [|left; reflexivity].
  destruct (ToBoolean (suggestion this)) eqn:Hs; [|left; reflexivity].
  simpl. unfold bind at 1. unfold get_world at 1.
  destruct (notebook w !! widget_cellIndex this) as [[cell|]|] eqn:Hc;
    [|left; reflexivity|left; reflexivity].
  destruct (model cell) as [m|] eqn:Hm; [|left; reflexivity].
  right. exists cell, m. repeat split; try assumption. discriminate.
Qed.

Lemma without_known (d n : NodeId) (l : list NodeId) :
  Forall (fun x => x < n) l -> Forall (fun x => x < n) (without d l).
Proof.
  intros H. unfold without. apply Forall_forall. intros x Hx.
  apply list_elem_of_filter in Hx as [_ Hx].
  revert x Hx. apply Forall_forall. exact H.
Qed.

(** The world [applySuggestion] leaves when it goes past its guards. *)
Lemma applied_world_facts (this : CellIssueWidget) (w : World) (cell' : Cell)
    (gone : list NodeId) :
  let w' := applied_world this w cell' gone in
  length (notebook w') = length (notebook w)
  /\ (forall j, j <> widget_cellIndex this -> notebook w' !! j = notebook w !! j)
  /\ (nodes_known w -> nodes_known w').
Proof.
  simpl. split; [apply length_insert|]. split.
  - intros j Hj. apply list_lookup_insert_ne. congruence.
  - unfold nodes_known. simpl. intros Hk.
    apply Forall_app in Hk as [Hb Hi]. apply Forall_app.
    assert (H : forall l, Forall (fun x => x < next_node w) l ->
                          Forall (fun x => x < S (next_node w))
                            (foldr without l gone)).
    { intros l Hl. induction gone as [|g gone IH]; simpl.
      - eapply Forall_impl; [exact Hl|]. simpl. intros; lia.
      - apply without_known. exact IH. }
    split; apply H; assumption.
Qed.

(** X12: [applySuggestion] writes to one cell at most: whatever its
    outcome, the notebook has as many cells as before and every cell other
    than the one at the stored index is as before; it attaches nothing to
    the document; and it keeps the nodes of the world known. *)
Theorem apply_touches_one_cell (env : Env) (this : CellIssueWidget) (w : World) :
  let '(_, w', t) := applySuggestion env this w in
  length (notebook w') = length (notebook w)
  /\ (forall j, j <> widget_cellIndex this -> notebook w' !! j = notebook w !! j)
  /\ (forall d, ~ In (AppendToBody d) t)
  /\ length (source_writes t) <= 1
  /\ (nodes_known w -> nodes_known w').
Proof.
  destruct (applySuggestion_cases env this w) as [E|(cell & m & Hn & Hs & Hc & Hm)].
  - rewrite E. simpl. repeat split; try tauto. lia.
  - rewrite (applySuggestion_proceeds env this w cell m Hn Hs Hc Hm).
    cbv zeta.
    destruct (axe_run env _ applyOptions) as [results|e].
    + destruct (length (violations results) =? 0).
      * destruct (applied_world_facts this w
                    (applied_cell env (suggestion this) cell m)
                    [next_node w; widget_node this]) as (H1 & H2 & H3).
        repeat split; try assumption.
        -- intros d. simpl. intuition discriminate.
        -- simpl. lia.
      * destruct (applied_world_facts this w
                    (applied_cell env (suggestion this) cell m)
                    [next_node w]) as (H1 & H2 & H3).
        repeat split; try assumption.
        -- intros d. simpl. intuition discriminate.
        -- simpl. lia.
    + destruct (applied_world_facts this w
                  (applied_cell env (suggestion this) cell m)
                  [next_node w]) as (H1 & H2 & H3).
      repeat split; try assumption.
      * intros d. simpl. intuition discriminate.
      * simpl. lia.
Qed.

(** X13: when the engine throws during the re-validation,
    [applySuggestion] throws what the engine threw; the source of the cell
    stays overwritten, the widget stays in the issue list and is not
    disposed, and the scratch container is removed as the last action. *)
Theorem apply_engine_failure (env : Env) (this : CellIssueWidget) (w : World)
    (cell : Cell) (m : CellModel) (e : exn) :
  currentNotebook this <> None ->
  ToBoolean (suggestion this) = true ->
  notebook w !! widget_cellIndex this = Some (Some cell) ->
  model cell = Some m ->
  nodes_known w ->
  axe_run env (revalidated env (applied_cell env (suggestion this) cell m))
    applyOptions = Throw e ->
  exists w' t,
    applySuggestion env this w = (Throw e, w', t ++ [RemoveNode (next_node w)])
    /\ notebook w' !! widget_cellIndex this
       = Some (Some (applied_cell env (suggestion this) cell m))
    /\ issuesContainer w' = issuesContainer w
    /\ body w' = body w
    /\ ~ In (Dispose (widget_node this)) t
    /\ source_writes t = [(widget_cellIndex this, suggestion this)].
Proof.
  intros Hn Hs Hc Hm Hk Ha.
  pose proof (applySuggestion_proceeds env this w cell m Hn Hs Hc Hm) as E.
  cbv zeta in E. rewrite Ha in E.
  apply Forall_app in Hk as [Hb Hi].
  do 2 eexists. split; [exact E|]. simpl.
  rewrite (without_fresh _ _ Hb), (without_fresh _ _ Hi).
  repeat split.
  - apply list_lookup_insert_eq. eapply lookup_cell_lt, Hc.
  - intuition discriminate.
Qed.

Lemma apply_engine_failure_witness :
  let env := Demo.env_with Demo.unreachable Demo.axe_failing in
  let this := Demo.widget_holding (JString (qjs "<img src='bat.png'>")) in
  let w := Demo.panel_world [Some Demo.img_cell] in
  exists w' t,
    applySuggestion env this w
    = (Throw (HostError (js "Axe is already running")), w', t ++ [RemoveNode 1])
    /\ notebook w' !! 0
       = Some (Some (applied_cell env (JString (qjs "<img src='bat.png'>"))
                       Demo.img_cell
                       {| type := js "markdown"; source := qjs "<img src='cat.png'>" |}))
    /\ issuesContainer w' = [0]
    /\ body w' = []
    /\ ~ In (Dispose 0) t
    /\ source_writes t = [(0, JString (qjs "<img src='bat.png'>"))].
Proof.
  intros env this w.
  apply (apply_engine_failure env this w Demo.img_cell
           {| type := js "markdown"; source := qjs "<img src='cat.png'>" |}
           (HostError (js "Axe is already running")));
    [discriminate | reflexivity | reflexivity | reflexivity
    | repeat constructor | reflexivity].
Defined.

(* ===================================================================== *)
(** ** From the reply of the service to the cell *)
(* ===================================================================== *)

Section EndToEnd.

Variable env : Env.
Variable issue : CellAccessibilityIssue.
Variable nb : NotebookPanel.
Variable n : NodeId.
Variable w : World.

(** The widget once the reply has arrived, for a reply whose payload is an
    object. *)
Lemma suggestion_arrives_object (response : Response) (responseText : jsstring)
    (responseObj : value) (rawJSONString : jsstring)
    (ms : list (jsstring * value)) :
  fetch env (make_request (formatPrompt issue)) = Return response ->
  ok response = true ->
  text response = Return responseText ->
  JSON_parse responseText = Return responseObj ->
  rawJSONString_of responseObj = Return rawJSONString ->
  JSON_parse rawJSONString = Return (JObject ms) ->
  suggestion_arrives env issue (CellIssueWidget_new issue nb n) w
  = (Return (on_suggestion (CellIssueWidget_new issue nb n)
               (or_empty (obj_get (js "exampleCellContent") ms),
                or_empty (obj_get (js "explanation") ms))),
     w, []).
Proof.
  intros Hf Hok Ht Hp Hr Hi.
  unfold suggestion_arrives, bind.
  rewrite (getFixSuggestions_ok _ _ _ _ _ _ Hf Hok Ht Hp), Hr, Hi.
  reflexivity.
Qed.

(** X14: from the reply to the cell.  When the payload of a successful
    reply is an object whose [exampleCellContent] is a non-empty string
    [X], the widget stores [X] and shows it, and a click on Apply, the cell
    of the issue being there with a model, makes [X] the source of that
    cell. *)
Theorem reply_reaches_cell (response : Response) (responseText : jsstring)
    (responseObj : value) (rawJSONString : jsstring)
    (ms : list (jsstring * value)) (X : jsstring) (cell : Cell) (m : CellModel) :
  fetch env (make_request (formatPrompt issue)) = Return response ->
  ok response = true ->
  text response = Return responseText ->
  JSON_parse responseText = Return responseObj ->
  rawJSONString_of responseObj = Return rawJSONString ->
  JSON_parse rawJSONString = Return (JObject ms) ->
  obj_get (js "exampleCellContent") ms = Some (JString X) ->
  X <> [] ->
  notebook w !! cellIndex issue = Some (Some cell) ->
  model cell = Some m ->
  exists this1 r w' t,
    suggestion_arrives env issue (CellIssueWidget_new issue nb n) w
    = (Return this1, w, [])
    /\ suggestion this1 = JString X
    /\ aiSuggestion_textContent this1 = JString X
    /\ applySuggestion env this1 w = (r, w', t)
    /\ exists cell',
         notebook w' !! cellIndex issue = Some (Some cell')
         /\ model cell' = Some {| type := type m; source := X |}.
Proof.
  intros Hf Hok Ht Hp Hr Hi Hx HX Hc Hm.
  pose proof (suggestion_arrives_object _ _ _ _ _ Hf Hok Ht Hp Hr Hi) as Ha.
  rewrite Hx in Ha.
  assert (Ho : or_empty (Some (JString X)) = JString X).
  { destruct X; [contradiction|reflexivity]. }
  rewrite Ho in Ha.
  set (this1 := on_suggestion (CellIssueWidget_new issue nb n)
                  (JString X, or_empty (obj_get (js "explanation") ms))) in *.
  assert (Hs : ToBoolean (suggestion this1) = true).
  { simpl. destruct X; [contradiction|reflexivity]. }
  assert (Hn : currentNotebook this1 <> None) by discriminate.
  pose proof (applySuggestion_proceeds env this1 w cell m Hn Hs Hc Hm) as E.
  cbv zeta in E.
  assert (Hl : <[cellIndex issue :=
                   Some (applied_cell env (JString X) cell m)]> (notebook w)
               !! cellIndex issue
               = Some (Some (applied_cell env (JString X) cell m))).
  { apply list_lookup_insert_eq. eapply lookup_cell_lt, Hc. }
  exists this1.
  destruct (axe_run env _ applyOptions) as [results|e];
    [destruct (length (violations results) =? 0)|].
  all: do 3 eexists.
  all: split; [exact Ha|].
  all: split; [reflexivity|].
  all: split; [reflexivity|].
  all: split; [exact E|].
  all: eexists; split; [exact Hl|reflexivity].
Qed.

(** X15: a reply without a suggestion leaves Apply without effect.  When
    the payload of a successful reply is an object whose
    [exampleCellContent] is absent, or a value that converts to false
    (the empty string, [null], [false], [0]), the widget stores the empty
    string, and a click on Apply returns without touching any world. *)
Theorem reply_without_suggestion (response : Response) (responseText : jsstring)
    (responseObj : value) (rawJSONString : jsstring)
    (ms : list (jsstring * value)) :
  fetch env (make_request (formatPrompt issue)) = Return response ->
  ok response = true ->
  text response = Return responseText ->
  JSON_parse responseText = Return responseObj ->
  rawJSONString_of responseObj = Return rawJSONString ->
  JSON_parse rawJSONString = Return (JObject ms) ->
  (obj_get (js "exampleCellContent") ms = None
   \/ exists v, obj_get (js "exampleCellContent") ms = Some v
                /\ ToBoolean v = false) ->
  exists this1,
    suggestion_arrives env issue (CellIssueWidget_new issue nb n) w
    = (Return this1, w, [])
    /\ suggestion this1 = JString []
    /\ forall (env' : Env) (w' : World),
         applySuggestion env' this1 w' = (Return this1, w', []).
Proof.
  intros Hf Hok Ht Hp Hr Hi Hx.
  pose proof (suggestion_arrives_object _ _ _ _ _ Hf Hok Ht Hp Hr Hi) as Ha.
  assert (Ho : or_empty (obj_get (js "exampleCellContent") ms) = JString []).
  { destruct Hx as [->|(v & -> & Hv)]; simpl; [reflexivity|].
    rewrite Hv. reflexivity. }
  rewrite Ho in Ha.
  eexists. split; [exact Ha|]. split; [reflexivity|].
  intros env' w'. apply applySuggestion_falsy. reflexivity.
Qed.

End EndToEnd.

Lemma reply_reaches_cell_witness :
  let w := Demo.panel_world [Some Demo.img_cell] in
  exists this1 r w' t,
    suggestion_arrives Demo2.reply_env Demo.img_issue
      (CellIssueWidget_new Demo.img_issue the_panel 0) w
    = (Return this1, w, [])
    /\ suggestion this1 = JString (js "alt text here")
    /\ aiSuggestion_textContent this1 = JString (js "alt text here")
    /\ applySuggestion Demo2.reply_env this1 w = (r, w', t)
    /\ exists cell',
         notebook w' !! 0 = Some (Some cell')
         /\ model cell' = Some {| type := js "markdown";
                                  source := js "alt text here" |}.
Proof.
  intros w.
  apply (reply_reaches_cell Demo2.reply_env Demo.img_issue the_panel 0 w
           {| status := 200%N; text := Return Demo.fenced_body |}
           Demo.fenced_body
           (JObject [(js "response",
                      JString (qjs "```json|{'exampleCellContent':'alt text here','explanation':'added alt'}|```"))])
           (qjs "{'exampleCellContent':'alt text here','explanation':'added alt'}")
           [(js "exampleCellContent", JString (js "alt text here"));
            (js "explanation", JString (js "added alt"))]
           (js "alt text here") Demo.img_cell
           {| type := js "markdown"; source := qjs "<img src='cat.png'>" |});
    try reflexivity; try (vm_compute; reflexivity); discriminate.
Defined.

Lemma reply_without_suggestion_witness :
  let env := Demo.env_with (Demo.respond 200 Demo2.explanation_only_body)
               Demo.axe_image_alt in
  let w := Demo.panel_world [Some Demo.img_cell] in
  exists this1,
    suggestion_arrives env Demo.img_issue
      (CellIssueWidget_new Demo.img_issue the_panel 0) w
    = (Return this1, w, [])
    /\ suggestion this1 = JString []
    /\ forall (env' : Env) (w' : World),
         applySuggestion env' this1 w' = (Return this1, w', []).
Proof.
  intros env w.
  apply (reply_without_suggestion env Demo.img_issue the_panel 0 w
           {| status := 200%N; text := Return Demo2.explanation_only_body |}
           Demo2.explanation_only_body
           (JObject [(js "response",
                      JString (qjs "{'explanation':'Nothing to change'}"))])
           (qjs "{'explanation':'Nothing to change'}")
           [(js "explanation", JString (js "Nothing to change"))]);
    try reflexivity; try (vm_compute; reflexivity).
  left. vm_compute. reflexivity.
Defined.

(* ===================================================================== *)
(** ** More on the panel *)
(* ===================================================================== *)

(** The world after [this.issuesContainer.innerHTML = '']. *)
Lemma clear_issues_world (w : World) :
  clear_issues w
  = (Return tt,
     {| notebook := notebook w; body := body w; issuesContainer := [];
        next_node := next_node w |}, []).
Proof. reflexivity. Qed.

(** Two worlds with the same cells and the same next node are scanned
    alike. *)
Lemma scan_same_notebook (env : Env) (w1 w2 : World) :
  notebook w1 = notebook w2 ->
  next_node w1 = next_node w2 ->
  exists r t,
    analyzeCellsAccessibility env w1 = (r, scan_done_world w1, t)
    /\ analyzeCellsAccessibility env w2 = (r, scan_done_world w2, t).
Proof.
  intros Hn Hd.
  destruct (analyze_cells_turns env (next_node w1) (notebook w1) 0 [])
    as (r & t & E & _).
  exists r. eexists. split.
  - apply (analyzeCellsAccessibility_loop env w1 r t (E _)).
  - rewrite Hd. apply (analyzeCellsAccessibility_loop env w2 r t).
    rewrite <- Hn, <- Hd. apply E.
Qed.

(** The widgets the panel builds for a list of issues, in a world whose
    issue list holds known nodes only. *)
Lemma add_widgets_spec (nb : NotebookPanel) (issues : list CellAccessibilityIssue) :
  forall w : World,
    Forall (fun d => d < next_node w) (issuesContainer w) ->
    exists widgets w' t,
      add_widgets nb issues w = (Return widgets, w', t)
      /\ map widget_cellIndex widgets = map cellIndex issues
      /\ map widget_node widgets = seq (next_node w) (length issues)
      /\ Forall (fun wd => suggestion wd = JString []
                           /\ currentNotebook wd = Some nb
                           /\ isDisposed wd = false) widgets
      /\ issuesContainer w' = issuesContainer w ++ map widget_node widgets
      /\ notebook w' = notebook w
      /\ next_node w' = next_node w + length issues
      /\ axe_calls t = [] /\ source_writes t = [].
Proof.
  induction issues as [|issue rest IH]; intros w Hk.
  - do 3 eexists. split; [reflexivity|]. simpl.
    rewrite app_nil_r, Nat.add_0_r. repeat split; constructor.
  - set (d := next_node w).
    set (w1 := {| notebook := notebook w;
                  body := without d (body w);
                  issuesContainer := issuesContainer w ++ [d];
                  next_node := S d |}).
    assert (Hk1 : Forall (fun x => x < next_node w1) (issuesContainer w1)).
    { simpl. apply Forall_app. split.
      - eapply Forall_impl; [exact Hk|]. simpl. intros; lia.
      - repeat constructor. }
    destruct (IH w1 Hk1) as (ws & w' & t & E & H1 & H2 & H3 & H4 & H5 & H6 & H7 & H8).
    exists (CellIssueWidget_new issue nb d :: ws), w'. eexists.
    split.
    + simpl. unfold bind, CellIssueWidget_constructor, bind, createElement,
        emit, ret, appendIssue. simpl.
      rewrite (without_fresh _ _ Hk). fold d. fold w1. rewrite E. reflexivity.
    + simpl. rewrite H1, H2, H4, H5, H6. simpl.
      rewrite <- app_assoc. simpl.
      repeat split; try assumption; try reflexivity.
      all: try (rewrite H2; reflexivity); try (unfold d; simpl; lia).
      all: try (rewrite app_nil_r; assumption).
      constructor; [repeat split|exact H3].
Qed.

(** X16: an analysis rebuilds the issue list.  When the scan of the
    notebook returns, the panel holds exactly one new widget per issue, in
    the order of the issues, whatever it held before; every widget is for
    the cell of its issue, bound to the notebook, not disposed, and has no
    suggestion yet; the nodes of the widgets are distinct. *)
Theorem analysis_rebuilds_issue_list (env : Env) (nb : NotebookPanel)
    (w : World) (issues : list CellAccessibilityIssue) :
  fst (fst (analyzeCellsAccessibility env w)) = Return issues ->
  exists widgets w' t,
    analyzeCurrentNotebook env (Some nb) w = (Return widgets, w', t)
    /\ map widget_cellIndex widgets = map cellIndex issues
    /\ issuesContainer w' = map widget_node widgets
    /\ NoDup (map widget_node widgets)
    /\ Forall (fun wd => suggestion wd = JString []
                         /\ currentNotebook wd = Some nb
                         /\ isDisposed wd = false) widgets
    /\ notebook w' = notebook w.
Proof.
  intros H.
  set (wc := {| notebook := notebook w; body := body w; issuesContainer := [];
                next_node := next_node w |}).
  destruct (scan_same_notebook env w wc eq_refl eq_refl) as (r & ts & E1 & E2).
  rewrite E1 in H. simpl in H. subst r.
  destruct (add_widgets_spec nb issues (scan_done_world wc))
    as (ws & w' & ta & E & H1 & H2 & H3 & H4 & H5 & _).
  { simpl. constructor. }
  exists ws, w'. eexists. split.
  - unfold analyzeCurrentNotebook, bind at 1. rewrite clear_issues_world.
    fold wc. unfold bind. rewrite E2, E. reflexivity.
  - split; [exact H1|]. split; [rewrite H4; reflexivity|].
    split; [rewrite H2; apply NoDup_ListNoDup, List.seq_NoDup|].
    split; [exact H3|exact H5].
Qed.

(** X17: when the scan throws, the analysis throws the same, and the panel
    is left with an empty issue list: the widgets it held are gone and none
    is built. *)
Theorem analysis_failure_empties_panel (env : Env) (nb : NotebookPanel)
    (w : World) (e : exn) :
  fst (fst (analyzeCellsAccessibility env w)) = Throw e ->
  exists w' t,
    analyzeCurrentNotebook env (Some nb) w = (Throw e, w', t)
    /\ issuesContainer w' = []
    /\ notebook w' = notebook w.
Proof.
  intros H.
  set (wc := {| notebook := notebook w; body := body w; issuesContainer := [];
                next_node := next_node w |}).
  destruct (scan_same_notebook env w wc eq_refl eq_refl) as (r & ts & E1 & E2).
  rewrite E1 in H. simpl in H. subst r.
  do 2 eexists. split.
  - unfold analyzeCurrentNotebook, bind at 1. rewrite clear_issues_world.
    fold wc. unfold bind. rewrite E2. reflexivity.
  - split; reflexivity.
Qed.

Lemma analysis_rebuilds_issue_list_witness :
  let env := Demo.env_with Demo.unreachable Demo.axe_image_alt in
  let w := Demo.panel_world [Some Demo.code_cell; None; Some Demo.img_cell] in
  let issues :=
    [{| cellIndex := 0; cellType := js "code";
        axeResults := [Demo.image_alt]; contentRaw := js "print(1)" |};
     {| cellIndex := 2; cellType := js "markdown";
        axeResults := [Demo.image_alt];
        contentRaw := qjs "<img src='cat.png'>" |}] in
  exists widgets w' t,
    analyzeCurrentNotebook env (Some the_panel) w = (Return widgets, w', t)
    /\ map widget_cellIndex widgets = [0; 2]
    /\ issuesContainer w' = map widget_node widgets
    /\ NoDup (map widget_node widgets)
    /\ Forall (fun wd => suggestion wd = JString []
                         /\ currentNotebook wd = Some the_panel
                         /\ isDisposed wd = false) widgets
    /\ notebook w' = notebook w.
Proof.
  intros env w issues.
  apply (analysis_rebuilds_issue_list env the_panel w issues).
  vm_compute. reflexivity.
Defined.

Lemma analysis_failure_empties_panel_witness :
  let env := Demo.env_with Demo.unreachable Demo.axe_failing in
  let w := Demo.panel_world [Some Demo.img_cell] in
  exists w' t,
    analyzeCurrentNotebook env (Some the_panel) w
    = (Throw (HostError (js "Axe is already running")), w', t)
    /\ issuesContainer w' = []
    /\ notebook w' = notebook w.
Proof.
  intros env w.
  apply (analysis_failure_empties_panel env the_panel w).
  vm_compute. reflexivity.
Defined.

(* ===================================================================== *)
(** ** Navigation *)
(* ===================================================================== *)

(** X18: a click on an issue whose cell is not on the page does nothing:
    when no element has the class of a notebook, or the index is past the
    cell elements of the notebook, [navigateToCell] scrolls nowhere,
    changes no style and sets no timeout. *)
Theorem navigate_nowhere (index : nat) (p : Page) :
  page_cells p = None
  \/ (exists cells, page_cells p = Some cells /\ length cells <= index) ->
  navigateToCell index p = (p, []).
Proof.
  intros [H|(cells & H & Hl)]; unfold navigateToCell; rewrite H.
  - reflexivity.
  - rewrite (lookup_ge_None_2 cells index Hl). reflexivity.
Qed.

Lemma navigate_nowhere_witness :
  navigateToCell 3 Demo2.page = (Demo2.page, []).
Proof.
  apply navigate_nowhere. right. exists [10; 11; 12].
  split; [reflexivity|simpl; lia].
Defined.

(** The page after a navigation that finds its cell. *)
Lemma navigate_found (index : nat) (p : Page) (cells : list NodeId) (d : NodeId) :
  page_cells p = Some cells ->
  cells !! index = Some d ->
  exists p1,
    navigateToCell index p = (p1, [ScrollIntoView d])
    /\ page_cells p1 = page_cells p
    /\ timers p1 = timers p ++ [(2000%N, d)]
    /\ styles p1 d = {| transition := js "background-color 0.5s ease";
                        backgroundColor := js "#FFFFC5" |}
    /\ forall x, x <> d -> styles p1 x = styles p x.
Proof.
  intros Hc Hd. unfold navigateToCell. rewrite Hc, Hd.
  eexists. split; [reflexivity|]. simpl.
  split; [congruence|]. split; [reflexivity|]. split.
  - rewrite !decide_True by reflexivity. reflexivity.
  - intros x Hx. rewrite !decide_False by assumption. reflexivity.
Qed.

(** X19: a click on an issue whose cell is on the page scrolls to the
    cell, gives it the yellow background and sets one timeout of two
    seconds; when the timeout fires the background of the cell is the empty
    string, whatever it was before the click, and the transition set by the
    click stays; no other element is restyled. *)
Theorem highlight_then_reset (index : nat) (p : Page) (cells : list NodeId)
    (d : NodeId) :
  page_cells p = Some cells ->
  cells !! index = Some d ->
  timers p = [] ->
  exists p1,
    navigateToCell index p = (p1, [ScrollIntoView d])
    /\ styles p1 d = {| transition := js "background-color 0.5s ease";
                        backgroundColor := js "#FFFFC5" |}
    /\ timers p1 = [(2000%N, d)]
    /\ styles (timeout_fires p1) d
       = {| transition := js "background-color 0.5s ease";
            backgroundColor := [] |}
    /\ timers (timeout_fires p1) = []
    /\ forall x, x <> d ->
         styles p1 x = styles p x /\ styles (timeout_fires p1) x = styles p x.
Proof.
  intros Hc Hd Ht.
  destruct (navigate_found index p cells d Hc Hd) as (p1 & E & _ & H2 & H3 & H4).
  rewrite Ht in H2. simpl in H2.
  exists p1. split; [exact E|]. split; [exact H3|]. split; [exact H2|].
  unfold timeout_fires. rewrite H2. simpl.
  split; [rewrite decide_True by reflexivity; rewrite H3; reflexivity|].
  split; [reflexivity|].
  intros x Hx. split; [apply H4, Hx|].
  rewrite decide_False by assumption. apply H4, Hx.
Qed.

Lemma highlight_then_reset_witness :
  exists p1,
    navigateToCell 1 Demo2.page = (p1, [ScrollIntoView 11])
    /\ styles p1 11 = {| transition := js "background-color 0.5s ease";
                         backgroundColor := js "#FFFFC5" |}
    /\ timers p1 = [(2000%N, 11)]
    /\ styles (timeout_fires p1) 11
       = {| transition := js "background-color 0.5s ease";
            backgroundColor := [] |}
    /\ timers (timeout_fires p1) = []
    /\ forall x, x <> 11 ->
         styles p1 x = styles Demo2.page x
         /\ styles (timeout_fires p1) x = styles Demo2.page x.
Proof.
  apply (highlight_then_reset 1 Demo2.page [10; 11; 12] 11); reflexivity.
Defined.

(** X20: a second click on the same issue before the first timeout has
    fired does not prolong the highlight: the timeout of the first click
    clears the background while the timeout of the second click is still
    pending. *)
Theorem second_click_cut_short (index : nat) (p : Page) (cells : list NodeId)
    (d : NodeId) :
  page_cells p = Some cells ->
  cells !! index = Some d ->
  timers p = [] ->
  exists p1 p2,
    navigateToCell index p = (p1, [ScrollIntoView d])
    /\ navigateToCell index p1 = (p2, [ScrollIntoView d])
    /\ backgroundColor (styles p2 d) = js "#FFFFC5"
    /\ timers p2 = [(2000%N, d); (2000%N, d)]
    /\ backgroundColor (styles (timeout_fires p2) d) = []
    /\ timers (timeout_fires p2) = [(2000%N, d)].
Proof.
  intros Hc Hd Ht.
  destruct (navigate_found index p cells d Hc Hd) as (p1 & E1 & C1 & T1 & _).
  rewrite Hc in C1.
  destruct (navigate_found index p1 cells d C1 Hd) as (p2 & E2 & _ & T2 & S2 & _).
  rewrite T1, Ht in T2. simpl in T2.
  exists p1, p2. split; [exact E1|]. split; [exact E2|].
  split; [rewrite S2; reflexivity|]. split; [exact T2|].
  unfold timeout_fires. rewrite T2. simpl.
  split; [rewrite decide_True by reflexivity; reflexivity|reflexivity].
Qed.

Lemma second_click_cut_short_witness :
  exists p1 p2,
    navigateToCell 0 Demo2.page = (p1, [ScrollIntoView 10])
    /\ navigateToCell 0 p1 = (p2, [ScrollIntoView 10])
    /\ backgroundColor (styles p2 10) = js "#FFFFC5"
    /\ timers p2 = [(2000%N, 10); (2000%N, 10)]
    /\ backgroundColor (styles (timeout_fires p2) 10) = []
    /\ timers (timeout_fires p2) = [(2000%N, 10)].
Proof.
  apply (second_click_cut_short 0 Demo2.page [10; 11; 12] 10); reflexivity.
Defined.

(* ===================================================================== *)
(** ** The plugin *)
(* ===================================================================== *)

Lemma changes_without_notebook {P} (changes : list (ShellWidget P))
    (cur : option P) :
  Forall (fun c => is_notebook c = false) changes ->
  fold_left (fun cur current => on_currentChanged current cur) changes cur = cur.
Proof.
  intros H. revert cur. induction H as [|c l Hc _ IH]; intros cur.
  - reflexivity.
  - simpl. rewrite IH. destruct c; [discriminate|reflexivity|reflexivity].
Qed.

(** X21: the panel is bound to the notebook that was made current last.
    After a notebook panel became the current widget, changes to widgets
    that are no notebook panels, or to no widget at all, leave the panel
    bound to that notebook. *)
Theorem panel_keeps_last_notebook {P} (before after : list (ShellWidget P))
    (nb : P) :
  Forall (fun c => is_notebook c = false) after ->
  activate (before ++ IsNotebookPanel nb :: after) = Some nb.
Proof.
  intros H. unfold activate. rewrite fold_left_app. simpl.
  apply changes_without_notebook. exact H.
Qed.

Lemma panel_keeps_last_notebook_witness :
  activate ([OtherWidget; IsNotebookPanel 1] ++ IsNotebookPanel 2
              :: [OtherWidget; NoWidget])
  = Some 2.
Proof.
  apply (panel_keeps_last_notebook [OtherWidget; IsNotebookPanel 1]
           [OtherWidget; NoWidget] 2).
  repeat constructor.
Defined.

(** X22: as long as no notebook panel has been the current widget, the
    panel has no notebook and a click on the button of the panel does
    nothing: the issue list is not cleared, no scan is run. *)
Theorem analysis_without_notebook (changes : list (ShellWidget NotebookPanel))
    (env : Env) (w : World) :
  Forall (fun c => is_notebook c = false) changes ->
  activate changes = None
  /\ analyzeCurrentNotebook env (activate changes) w = (Return [], w, []).
Proof.
  intros H.
  assert (E : activate changes = None).
  { unfold activate. apply changes_without_notebook. exact H. }
  rewrite E. split; reflexivity.
Qed.

Lemma analysis_without_notebook_witness :
  let env := Demo.env_with Demo.unreachable Demo.axe_image_alt in
  let w := Demo.panel_world [Some Demo.img_cell] in
  let changes : list (ShellWidget NotebookPanel) := [OtherWidget; NoWidget] in
  activate changes = None
  /\ analyzeCurrentNotebook env (activate changes) w = (Return [], w, []).
Proof.
  intros env w changes.
  apply (analysis_without_notebook changes env w).
  repeat constructor.
Defined.

(* ===================================================================== *)
(** ** Images *)
(* ===================================================================== *)

Lemma split_on_absent (sep : N) (s : jsstring) :
  ~ In sep s -> split_on sep s = [s].
Proof.
  induction s as [|c s IH]; intros H; [reflexivity|].
  simpl. destruct (N.eqb_spec c sep) as [->|Hne].
  - exfalso. apply H. left. reflexivity.
  - rewrite IH; [reflexivity|]. intros Hin. apply H. right. exact Hin.
Qed.

Lemma split_on_first (sep : N) (a b : jsstring) :
  ~ In sep a -> split_on sep (a ++ sep :: b) = a :: split_on sep b.
Proof.
  induction a as [|c a IH]; intros H.
  - simpl. rewrite N.eqb_refl. reflexivity.
  - simpl. destruct (N.eqb_spec c sep) as [->|Hne].
    + exfalso. apply H. left. reflexivity.
    + rewrite IH; [reflexivity|]. intros Hin. apply H. right. exact Hin.
Qed.

(** X23: [fetchImageAsBase64] returns what follows the first comma of the
    data URL: for a data URL made of a header without comma, a comma, and
    data without comma (as base64 text is), the result is the data; errors
    of the request and of the reader are passed on. *)
Theorem fetchImageAsBase64_strips_header {Blob} (env : ImageEnv Blob)
    (imageUrl : jsstring) (imageBlob : Blob) (header data : jsstring) :
  axios_get env imageUrl = Return imageBlob ->
  readAsDataURL env imageBlob = Return (header ++ 44%N :: data) ->
  ~ In 44%N header ->
  ~ In 44%N data ->
  fetchImageAsBase64 env imageUrl = Return (Some data).
Proof.
  intros Hg Hr Hh Hd. unfold fetchImageAsBase64. rewrite Hg, Hr.
  rewrite (split_on_first _ _ _ Hh), (split_on_absent _ _ Hd). reflexivity.
Qed.

Lemma fetchImageAsBase64_strips_header_witness :
  fetchImageAsBase64 Demo2.image_env (js "https://example.org/cat.png")
  = Return (Some (js "iVBORw0KGgo=")).
Proof.
  apply (fetchImageAsBase64_strips_header Demo2.image_env _ tt
           (js "data:image/png;base64") (js "iVBORw0KGgo="));
    try reflexivity; vm_compute; intuition discriminate.
Defined.

(* ===================================================================== *)
(** ** The prompt *)
(* ===================================================================== *)

(** X24: the prompt is made of the source of the cell and of the id and
    the description of each violation, in their order, and of nothing
    else: two issues that agree on these have the same prompt, whatever
    their cell index, their cell type and the impact, the help text and the
    help URL of their violations. *)
Theorem formatPrompt_reads (issue1 issue2 : CellAccessibilityIssue) :
  contentRaw issue1 = contentRaw issue2 ->
  map (fun r => (id r, description r)) (axeResults issue1)
  = map (fun r => (id r, description r)) (axeResults issue2) ->
  formatPrompt issue1 = formatPrompt issue2.
Proof.
  intros Hc Hr. unfold formatPrompt. rewrite Hc. do 4 f_equal.
  set (block := fun p : jsstring * jsstring =>
                  qjs "Issue: " ++ fst p ++ qjs "||"
                  ++ qjs "Description: " ++ snd p ++ qjs "||").
  assert (E : forall l : list AxeResult,
             map (fun r => qjs "Issue: " ++ id r ++ qjs "||"
                           ++ qjs "Description: " ++ description r ++ qjs "||") l
             = map block (map (fun r => (id r, description r)) l)).
  { intros l. rewrite map_map. reflexivity. }
  rewrite !E, Hr. reflexivity.
Qed.

Lemma formatPrompt_reads_witness :
  formatPrompt Demo.img_issue
  = formatPrompt
      {| cellIndex := 7; cellType := js "code";
         axeResults := [{| id := js "image-alt"; impact := js "minor";
                           description := js "Ensures <img> elements have alternate text";
                           help := []; helpUrl := [] |}];
         contentRaw := qjs "<img src='cat.png'>" |}.
Proof. apply formatPrompt_reads; reflexivity. Defined.

(* ===================================================================== *)
(** ** Apply after a failed suggestion *)
(* ===================================================================== *)

(** After every backend failure the placeholder is what Apply writes: the
    widget of an issue stores the placeholder, and [applySuggestion], the
    cell of the issue being there with a model, makes the placeholder the
    source of that cell, whatever the engine answers. *)
Lemma failure_then_apply_overwrites (env : Env) (issue : CellAccessibilityIssue)
    (nb : NotebookPanel) (n : NodeId) (w : World) (cell : Cell) (m : CellModel) :
  BackendFailure env (formatPrompt issue) ->
  notebook w !! cellIndex issue = Some (Some cell) ->
  model cell = Some m ->
  exists ph this1 t1 r w' t2,
    (ph = error_placeholder \/ ph = invalid_placeholder)
    /\ suggestion_arrives env issue (CellIssueWidget_new issue nb n) w
       = (Return this1, w, t1)
    /\ suggestion this1 = JString ph
    /\ applySuggestion env this1 w = (r, w', t2)
    /\ notebook w' !! cellIndex issue
       = Some (Some (applied_cell env (JString ph) cell m))
    /\ model (applied_cell env (JString ph) cell m)
       = Some {| type := type m; source := ph |}
    /\ source_writes t2 = [(cellIndex issue, JString ph)].
Proof.
  intros Hfail Hc Hm.
  destruct (getFixSuggestions_failure env _ w Hfail) as (ph & t & Hg & Hph).
  set (this1 := on_suggestion (CellIssueWidget_new issue nb n)
                  (JString ph, JString [])).
  assert (Hs : ToBoolean (suggestion this1) = true).
  { destruct Hph as [-> | ->]; reflexivity. }
  assert (Hn : currentNotebook this1 <> None) by discriminate.
  pose proof (applySuggestion_proceeds env this1 w cell m Hn Hs Hc Hm) as E.
  cbv zeta in E.
  assert (Hl : <[cellIndex issue :=
                   Some (applied_cell env (JString ph) cell m)]> (notebook w)
               !! cellIndex issue
               = Some (Some (applied_cell env (JString ph) cell m))).
  { apply list_lookup_insert_eq. eapply lookup_cell_lt, Hc. }
  exists ph, this1, (t ++ []).
  destruct (axe_run env _ applyOptions) as [results|e];
    [destruct (length (violations results) =? 0)|].
  all: do 3 eexists.
  all: split; [exact Hph|].
  all: split; [unfold suggestion_arrives, bind; rewrite Hg; reflexivity|].
  all: split; [reflexivity|].
  all: split; [exact E|].
  all: split; [exact Hl|].
  all: split; reflexivity.
Qed.
